(** * certbot-dns-schlundtech: the XML codec and the gateway client

    A shallow embedding of [certbot_dns_schlundtech/dns_schlundtech.py]:
    the classes [_XML] (marshal / unmarshal) and [_SchlundtechGatewayClient]
    (gateway calls, zone lookup, TXT record insertion and removal), together
    with the Python string and container operations they rely on. *)

From Stdlib Require Import List String Ascii Bool ZArith Lia.
From Stdlib Require Import Numbers.DecimalString.
Import ListNotations.

Local Open Scope string_scope.
Local Open Scope list_scope.

Set Warnings "-register-all".

(** ** Python strings *)

Module PyStr.

(** [s.startswith(p)] *)
Definition startswith (s p : string) : bool := String.prefix p s.

(** [s[n:]] for [n >= 0] *)
Fixpoint drop (n : nat) (s : string) : string :=
  match n, s with
  | O, _ => s
  | S _, EmptyString => EmptyString
  | S k, String _ s' => drop k s'
  end.

(** [s.endswith(suffix)] *)
Definition endswith (s suffix : string) : bool :=
  (String.length suffix <=? String.length s)%nat
  && String.eqb (drop (String.length s - String.length suffix) s) suffix.

(** The scan of [s.replace(old, new)] for a non-empty [old]: left to right,
    an occurrence of [old] at the current position is replaced and skipped
    whole ([skip] counts the characters of it that are still to be passed
    over), so occurrences never overlap. *)
Fixpoint replace_scan (old new : string) (skip : nat) (s : string) : string :=
  match s with
  | EmptyString => EmptyString
  | String c s' =>
      match skip with
      | S k => replace_scan old new k s'
      | O =>
          if startswith s old
          then new ++ replace_scan old new (String.length old - 1) s'
          else String c (replace_scan old new O s')
      end
  end.

(** [s.replace("", new)]: [new] before every character and at the end. *)
Fixpoint intersperse (new s : string) : string :=
  match s with
  | EmptyString => new
  | String c s' => new ++ String c (intersperse new s')
  end.

(** [s.replace(old, new)]: every occurrence is replaced. *)
Definition replace (s old new : string) : string :=
  match old with
  | EmptyString => intersperse new s
  | String _ _ => replace_scan old new O s
  end.

(** [sub in s] on strings *)
Fixpoint contains (s sub : string) : bool :=
  startswith s sub ||
  match s with
  | EmptyString => false
  | String _ s' => contains s' sub
  end.

(** [str(n)] for an [int] *)
Definition of_Z (z : Z) : string := NilZero.string_of_int (Z.to_int z).

(** The limit on integer string conversion of CPython 3.11 and later, at
    its default ([sys.int_info.default_max_str_digits]): [str(n)] raises
    [ValueError] for an [int] of more decimal digits (the sign apart). *)
Definition int_max_str_digits : nat := 4300.

Definition digits (z : Z) : nat := String.length (of_Z (Z.abs z)).

Definition fits (z : Z) : bool := (digits z <=? int_max_str_digits)%nat.

End PyStr.

(** ** [_strip_domain] *)

Definition _strip_domain (domain validation_name : string) : string :=
  if PyStr.endswith validation_name domain
  then PyStr.replace validation_name ("." ++ domain) ""
  else validation_name.

(** ** Python values

    The values the codec and the client handle, by Python type.  A [dict]
    keeps its insertion order ([data.items()] is iterated by [marshal]), so it
    is an association list whose keys are pairwise distinct. *)

Inductive pyval : Type :=
| PNone
| PStr (s : string)
| PInt (z : Z)
| PFloat (str_form : string)            (* a float, with what [str] renders *)
| PList (items : list pyval)
| PDict (entries : list (string * pyval))
| PObj (attrs : list (string * pyval))   (* another object having a [__dict__] *)
| POther (str_form : string).            (* anything else: a bool, a tuple, bytes, ... *)

Inductive exn : Type :=
| NotImplementedError (msg : string)
| KeyError (key : string)
| TypeError
| ValueError
| PluginError (msg : string).

(** Computations that may raise. *)
Definition result (A : Type) : Type := (exn + A)%type.

Definition ok {A} (a : A) : result A := inr a.
Definition raise {A} (x : exn) : result A := inl x.
Definition rbind {A B} (m : result A) (k : A -> result B) : result B :=
  match m with
  | inl x => inl x
  | inr a => k a
  end.

Declare Scope result_scope.
Delimit Scope result_scope with result.
Notation "x <~ m ;; k" := (rbind m (fun x => k))
  (at level 61, m at next level, right associativity) : result_scope.

(** [str(n)] for an [int]: the decimal form, or [ValueError] beyond the
    limit on the digits. *)
Definition str_int (z : Z) : result string :=
  if PyStr.fits z then ok (PyStr.of_Z z) else raise ValueError.

Module Dict.

Definition t : Type := list (string * pyval).

(** [d.get(k)], [None] standing for a missing key *)
Fixpoint get (d : t) (k : string) : option pyval :=
  match d with
  | [] => None
  | (k', v) :: d' => if String.eqb k' k then Some v else get d' k
  end.

(** [k in d] *)
Definition mem (d : t) (k : string) : bool :=
  match get d k with Some _ => true | None => false end.

(** [d[k] = v]: an existing key keeps its place, a new one goes last. *)
Fixpoint set (d : t) (k : string) (v : pyval) : t :=
  match d with
  | [] => [(k, v)]
  | (k', v') :: d' =>
      if String.eqb k' k then (k', v) :: d' else (k', v') :: set d' k v
  end.

Definition keys (d : t) : list string := map fst d.

End Dict.

(** ** [xml.etree.ElementTree] elements

    Of an element the code reads the tag, the text and the children. *)

Inductive element : Type :=
| Element (tag : string) (text : option string) (children : list element).

Definition tag (e : element) : string :=
  match e with Element t _ _ => t end.
Definition text (e : element) : option string :=
  match e with Element _ x _ => x end.
Definition children (e : element) : list element :=
  match e with Element _ _ c => c end.

(** [e.append(child)] *)
Definition append (e child : element) : element :=
  match e with Element t x c => Element t x (c ++ [child]) end.

(** [Et.SubElement(e, tag).text = txt] *)
Definition SubElement_text (e : element) (tg txt : string) : element :=
  append e (Element tg (Some txt) []).

(** [e] with the elements [es] after its children. *)
Definition extend (e : element) (es : list element) : element :=
  match e with Element t x c => Element t x (c ++ es) end.

(** A loop [for a in l: s = body(a, s)] that stops at the first exception. *)
Definition for_each {A S : Type} (body : A -> S -> result S)
  : list A -> S -> result S :=
  fix loop (l : list A) (s : S) : result S :=
    match l with
    | [] => ok s
    | a :: l' =>
        match body a s with
        | inl x => inl x
        | inr s' => loop l' s'
        end
    end.

(** ** Class [_XML] *)

Module XML.

(** [_marshal_value(e, tag, value)]: the element [e] is passed through and
    returned with the new children.  The [dict] and [__dict__] cases are the
    body of [marshal], which follows. *)
Fixpoint _marshal_value (value : pyval) (e : element) (tg : string)
  {struct value} : result element :=
  match value with
  | PNone => ok e
  | PStr s => ok (SubElement_text e tg s)
  | PInt z =>
      match str_int z with
      | inl x => inl x
      | inr s => ok (SubElement_text e tg s)
      end
  | PFloat f => ok (SubElement_text e tg f)
  | PList items =>
      for_each (fun item e' => _marshal_value item e' tg) items e
  | PDict data =>
      match
        for_each (fun entry m => _marshal_value (snd entry) m (fst entry))
                 data (Element tg None [])
      with
      | inl x => inl x
      | inr m => ok (append e m)
      end
  | PObj attrs =>
      match
        for_each (fun entry m => _marshal_value (snd entry) m (fst entry))
                 attrs (Element tg None [])
      with
      | inl x => inl x
      | inr m => ok (append e m)
      end
  | POther s =>
      raise (NotImplementedError ("Unable to serialize " ++ tg ++ "=" ++ s))
  end.

(** [marshal(tag, data)] *)
Definition marshal (tg : string) (data : Dict.t) : result element :=
  for_each (fun entry m => _marshal_value (snd entry) m (fst entry))
           data (Element tg None []).

(** One turn of the loop of [unmarshal]. *)
Definition unmarshal_step (res : Dict.t) (name : string) (value : pyval)
  : Dict.t :=
  match Dict.get res name with
  | Some (PList l) => Dict.set res name (PList (l ++ [value]))
  | Some old => Dict.set res name (PList [old; value])
  | None => Dict.set res name value
  end.

(** [unmarshal(e)] *)
Fixpoint unmarshal (e : element) : pyval :=
  match e with
  | Element _ (Some txt) _ => PStr txt
  | Element _ None [] => PNone
  | Element _ None cs =>
      PDict (fold_left
               (fun res child =>
                  unmarshal_step res (tag child) (unmarshal child))
               cs [])
  end.

(** The body of the loop of [unmarshal]. *)
Definition turn (res : Dict.t) (child : element) : Dict.t :=
  unmarshal_step res (tag child) (unmarshal child).

(** [tostring] and [fromstring], up to the library's serializer and
    parser. *)
Definition tostring (tg : string) (obj : Dict.t) : result element :=
  marshal tg obj.
Definition fromstring (data : element) : pyval := unmarshal data.

End XML.

(** ** Python operators on values *)

Module Py.

Local Open Scope result_scope.

(** [v is None] *)
Definition is_none (v : pyval) : bool :=
  match v with PNone => true | _ => false end.

(** [type(v) == list] *)
Definition is_list (v : pyval) : bool :=
  match v with PList _ => true | _ => false end.

(** [v == s] for a [str] [s]: only an equal [str] compares equal. *)
Definition eq_str (v : pyval) (s : string) : bool :=
  match v with PStr t => String.eqb t s | _ => false end.

(** The truth value of [v] in a condition. *)
Definition truthy (v : pyval) : bool :=
  match v with
  | PNone => false
  | PStr s => negb (String.eqb s "")
  | PInt z => negb (Z.eqb z 0)
  | PFloat f => negb (String.eqb f "0.0" || String.eqb f "-0.0")
  | PList l => match l with [] => false | _ => true end
  | PDict d => match d with [] => false | _ => true end
  | PObj _ => true
  | POther _ => true
  end.

(** [v[k]] for a [str] key [k] *)
Definition getitem (v : pyval) (k : string) : result pyval :=
  match v with
  | PDict d =>
      match Dict.get d k with
      | Some x => ok x
      | None => raise (KeyError k)
      end
  | _ => raise TypeError
  end.

(** [v[k] = x] *)
Definition setitem (v : pyval) (k : string) (x : pyval) : result pyval :=
  match v with
  | PDict d => ok (PDict (Dict.set d k x))
  | _ => raise TypeError
  end.

(** [k in v] for a [str] [k] *)
Definition contains (k : string) (v : pyval) : result bool :=
  match v with
  | PDict d => ok (Dict.mem d k)
  | PStr s => ok (PyStr.contains s k)
  | PList l => ok (existsb (fun x => eq_str x k) l)
  | _ => raise TypeError
  end.

(** The items [for x in v] goes through. *)
Definition iter (v : pyval) : result (list pyval) :=
  match v with
  | PList l => ok l
  | PDict d => ok (map PStr (Dict.keys d))
  | PStr s => ok (map (fun c => PStr (String c EmptyString)) (list_ascii_of_string s))
  | _ => raise TypeError
  end.

(** [s + v] for a [str] [s] *)
Definition str_add (s : string) (v : pyval) : result string :=
  match v with
  | PStr t => ok (s ++ t)%string
  | _ => raise TypeError
  end.

End Py.

(** ** The gateway seen from the client *)

Inductive transport_error : Type :=
| HTTPError (code : Z) (reason : string)   (* the status, of three digits *)
| URLError (reason : string).

(** What [urlopen] and the parse of the body give: the root element of the
    response, or the exception raised. *)
Inductive outcome : Type :=
| Reply (body : element)
| Fails (err : transport_error).

(** The remote side: its answer to a request, given the requests it has
    already received. *)
Definition gateway : Type := list element -> element -> outcome.

(** What a run leaves behind: the requests posted and the debug log. *)
Record world : Type := World { sent : list element; log : list string }.

Definition M (A : Type) : Type := world -> world * result A.

Definition ret {A} (a : A) : M A := fun w => (w, ok a).
Definition throw {A} (x : exn) : M A := fun w => (w, raise x).
Definition lift {A} (r : result A) : M A := fun w => (w, r).
Definition bind {A B} (m : M A) (k : A -> M B) : M B :=
  fun w =>
    match m w with
    | (w', inl x) => (w', inl x)
    | (w', inr a) => k a w'
    end.
Definition debug (line : string) : M unit :=
  fun w => (World (sent w) (log w ++ [line]), ok tt).
Definition post (gw : gateway) (req : element) : M outcome :=
  fun w => (World (sent w ++ [req]) (log w), ok (gw (sent w) req)).

Declare Scope prog_scope.
Delimit Scope prog_scope with prog.
Notation "x <- m ;; k" := (bind m (fun x => k))
  (at level 61, m at next level, right associativity) : prog_scope.
Notation "m ;;; k" := (bind m (fun _ => k))
  (at level 61, right associativity) : prog_scope.

Definition nl : string := String (ascii_of_nat 10) EmptyString.

Definition GATEWAY_URL : string := "https://gateway.schlundtech.de".

Record client : Type :=
  Client { user : string; password : string; context : string; ttl : Z }.

(** ** Class [_SchlundtechGatewayClient]

    [repr] is Python's builtin on values and on the transport's exceptions;
    it only feeds the debug log and one error message.  [Et.tostring] and
    [Et.fromstring] are the library's serializer and parser: the wire is
    taken at the level of element trees, so [tostring] is [marshal] and
    [fromstring] is [unmarshal] of the root element received. *)

Section GatewayClient.

Variable repr : pyval -> string.
Variable repr_error : transport_error -> string.
Variable gw : gateway.

Local Open Scope prog_scope.
Local Open Scope result_scope.

(** What [str.format] renders for a value. *)
Definition format_value (v : pyval) : result string :=
  match v with
  | PStr s => ok s
  | PInt z => str_int z
  | PFloat f => ok f
  | POther f => ok f
  | _ => ok (repr v)
  end.

Definition _auth (self : client) : pyval :=
  PDict [("user", PStr (user self));
         ("password", PStr (password self));
         ("context", PStr (context self))].

Definition _log_call_error (request : pyval) (response : pyval)
  (error : option transport_error) : M unit :=
  debug ("Error calling " ++ GATEWAY_URL) ;;;
  task <- lift (Py.getitem request "task") ;;
  debug ("Request was:  " ++ repr task) ;;;
  (if negb (Py.is_none response)
   then debug ("Response was: " ++ repr response)
   else ret tt) ;;;
  match error with
  | Some e => debug ("Error was:    " ++ repr_error e)
  | None => ret tt
  end.

Definition _call (self : client) (task : pyval) : M pyval :=
  let request : Dict.t :=
    [("auth", _auth self); ("language", PStr "en"); ("task", task)] in
  data <- lift (XML.tostring "request" request) ;;
  connection <- post gw data ;;
  match connection with
  | Reply body =>
      let response := XML.fromstring body in
      good <- lift (if negb (Py.is_none response)
                    then r <~ Py.getitem response "result" ;;
                         ok (negb (Py.is_none r))
                    else ok false) ;;
      if good : bool then lift (Py.getitem response "result")
      else
        _log_call_error (PDict request) response None ;;;
        let msg := if negb (Py.is_none response)
                   then (nl ++ repr response)%string else "" in
        throw (PluginError
                 ("Unexpected response received from " ++ GATEWAY_URL ++ msg))
  | Fails (HTTPError code reason as e) =>
      _log_call_error (PDict request) PNone (Some e) ;;;
      throw (PluginError
               ("Communication error while calling " ++ GATEWAY_URL ++ nl
                ++ "Response: " ++ PyStr.of_Z code ++ ", " ++ reason))
  | Fails (URLError reason as e) =>
      _log_call_error (PDict request) PNone (Some e) ;;;
      throw (PluginError
               ("Communication error while calling " ++ GATEWAY_URL ++ nl
                ++ "Reason: " ++ reason))
  end.

Definition _zone_info (self : client) (domain : string) : M pyval :=
  res <- _call self (PDict [("code", PStr "0205");
                            ("zone", PDict [("name", PStr domain)])]) ;;
  good <- lift (if Py.truthy res
                then st <~ Py.getitem res "status" ;;
                     ty <~ Py.getitem st "type" ;;
                     ok (Py.eq_str ty "success")
                else ok false) ;;
  if good : bool
  then lift (data <~ Py.getitem res "data" ;; Py.getitem data "zone")
  else
    debug ("Failed retrieving zone " ++ domain) ;;;
    debug ("Response was: " ++ repr res) ;;;
    throw (PluginError ("Unable to find a SchlundTech zone for " ++ domain)).

(** The loop of [_current_value]: [Some v] when it returns [v] from inside
    the loop, [None] when the loop runs to its end. *)
Fixpoint scan_rr (prefix validation : string) (rrs : list pyval)
  : result (option pyval) :=
  match rrs with
  | [] => ok None
  | rr :: rest =>
      name <~ Py.getitem rr "name" ;;
      if Py.eq_str name prefix
      then value <~ Py.getitem rr "value" ;;
           if negb (Py.eq_str value validation)
           then ok (Some value)
           else scan_rr prefix validation rest
      else scan_rr prefix validation rest
  end.

(** [_current_value(info, domain, validation_name, validation)]; [info] is
    updated in place by the source, so it is returned next to the value. *)
Definition _current_value (info : pyval)
  (domain validation_name validation : string) : result (pyval * pyval) :=
  let prefix := _strip_domain domain validation_name in
  has_rr <~ Py.contains "rr" info ;;
  if has_rr : bool
  then
    rr <~ Py.getitem info "rr" ;;
    info' <~ (if negb (Py.is_list rr)
              then Py.setitem info "rr" (PList [rr])
              else ok info) ;;
    rrs <~ Py.getitem info' "rr" ;;
    items <~ Py.iter rrs ;;
    found <~ scan_rr prefix validation items ;;
    match found with
    | Some v => ok (info', v)
    | None => ok (info', PNone)
    end
  else ok (info, PNone).

(** The test and the message shared by the add and the remove paths:
    [result is None or result['status']['type'] != 'success'], and
    [('\n' + result['status']['text']) if ... else '']. *)
Definition update_failed (res : pyval) : result bool :=
  if Py.is_none res then ok true
  else st <~ Py.getitem res "status" ;;
       ty <~ Py.getitem st "type" ;;
       ok (negb (Py.eq_str ty "success")).

Definition status_text (res : pyval) : result string :=
  has_text <~ (if negb (Py.is_none res)
               then st <~ Py.getitem res "status" ;; Py.contains "text" st
               else ok false) ;;
  if has_text : bool
  then st <~ Py.getitem res "status" ;;
       txt <~ Py.getitem st "text" ;;
       Py.str_add nl txt
  else ok "".

Definition add_txt_record (self : client)
  (domain validation_name validation : string) : M unit :=
  info <- _zone_info self domain ;;
  cur <- lift (_current_value info domain validation_name validation) ;;
  let '(info, current_value) := cur in
  if negb (Py.is_none current_value) && negb (Py.eq_str current_value validation)
  then
    shown <- lift (format_value current_value) ;;
    debug (validation_name ++ " already exists with value " ++ shown) ;;;
    throw (PluginError
             ("TXT record " ++ validation_name ++ " for " ++ domain
              ++ " already exists with different value"))
  else if Py.eq_str current_value validation
  then debug (validation_name ++ " already exists with identical value")
  else
    system_ns <- lift (Py.getitem info "system_ns") ;;
    soa <- lift (Py.getitem info "soa") ;;
    res <- _call self
             (PDict [("code", PStr "0202001");
                     ("zone", PDict [("name", PStr domain);
                                     ("system_ns", system_ns)]);
                     ("default",
                      PDict [("rr_add",
                              PDict [("name", PStr (_strip_domain domain validation_name));
                                     ("type", PStr "TXT");
                                     ("value", PStr validation);
                                     ("ttl", PInt (ttl self))]);
                             ("soa", soa)])]) ;;
    failed <- lift (update_failed res) ;;
    if failed : bool
    then
      debug ("Failed adding TXT record '" ++ validation_name
             ++ "' for domain '" ++ domain ++ "'") ;;;
      debug ("Response was: " ++ repr res) ;;;
      msg <- lift (status_text res) ;;
      throw (PluginError
               ("Unable to add TXT record for " ++ domain ++ ": "
                ++ validation_name ++ msg))
    else ret tt.

Definition del_txt_record (self : client)
  (domain validation_name validation : string) : M unit :=
  info <- _zone_info self domain ;;
  system_ns <- lift (Py.getitem info "system_ns") ;;
  res <- _call self
           (PDict [("code", PStr "0202001");
                   ("zone", PDict [("name", PStr domain);
                                   ("system_ns", system_ns)]);
                   ("default",
                    PDict [("rr_rem",
                            PDict [("name", PStr (_strip_domain domain validation_name));
                                   ("type", PStr "TXT");
                                   ("value", PStr validation);
                                   ("ttl", PInt (ttl self))])])]) ;;
  failed <- lift (update_failed res) ;;
  if failed : bool
  then
    debug ("Failed removing TXT record '" ++ validation_name
           ++ "' for domain '" ++ domain ++ "'") ;;;
    debug ("Response was: " ++ repr res) ;;;
    msg <- lift (status_text res) ;;
    throw (PluginError
             ("Unable to remove TXT record for " ++ domain ++ ": "
              ++ validation_name ++ msg))
  else ret tt.

End GatewayClient.

(** ** Vocabulary of the statements *)

(** The value a field holds after its tag was met with the values [vs], in
    this order: absent, the bare value, or the list of all of them. *)
Definition grouped (vs : list pyval) : option pyval :=
  match vs with
  | [] => None
  | [v] => Some v
  | _ => Some (PList vs)
  end.

(** The children of [cs] that carry the tag [name], in document order. *)
Definition tagged (name : string) (cs : list element) : list element :=
  filter (fun c => String.eqb (tag c) name) cs.

(** No element of the tree has an empty text: the parser leaves [text] at
    [None] where there is no character data. *)
Fixpoint texts_nonempty (e : element) : bool :=
  match e with
  | Element _ txt cs =>
      match txt with
      | Some s => negb (String.eqb s "")
      | None => true
      end
      && forallb texts_nonempty cs
  end.

(** The shape of what [unmarshal] builds: [None], a non-empty string, a
    non-empty list or a non-empty dict, the containers holding values of this
    shape again. *)
Fixpoint unmarshalled (v : pyval) : bool :=
  match v with
  | PNone => true
  | PStr s => negb (String.eqb s "")
  | PList l =>
      match l with [] => false | _ => true end && forallb unmarshalled l
  | PDict d =>
      match d with [] => false | _ => true end
      && forallb (fun kv => unmarshalled (snd kv)) d
  | _ => false
  end.

Module Spec.

Local Open Scope result_scope.

(** The elements of [l], each encoded by [f], one after the other; the
    first failure is the failure of the whole. *)
Definition concat_map {A} (f : A -> result (list element))
  : list A -> result (list element) :=
  fix go (l : list A) : result (list element) :=
    match l with
    | [] => ok []
    | a :: l' =>
        match f a with
        | inl x => inl x
        | inr es =>
            match go l' with
            | inl x => inl x
            | inr es' => ok (es ++ es')
            end
        end
    end.

(** The Value-to-element rule, stated on its own: the elements emitted for
    an entry [(name, value)].  A scalar gives one element with its string
    form as text (an [int] that [str] does not convert fails with the
    [ValueError] of [str]), [None] gives none, a list gives the elements of its items
    in turn, a map gives one element holding the elements of its entries,
    and so does an object that has a [__dict__]; anything else is refused,
    the message naming the entry and the value. *)
Fixpoint encode (name : string) (value : pyval) : result (list element) :=
  match value with
  | PNone => ok []
  | PStr s => ok [Element name (Some s) []]
  | PInt z =>
      match str_int z with
      | inl x => inl x
      | inr s => ok [Element name (Some s) []]
      end
  | PFloat f => ok [Element name (Some f) []]
  | PList items => concat_map (encode name) items
  | PDict data =>
      match concat_map (fun entry => encode (fst entry) (snd entry)) data with
      | inl x => inl x
      | inr cs => ok [Element name None cs]
      end
  | PObj attrs =>
      match concat_map (fun entry => encode (fst entry) (snd entry)) attrs with
      | inl x => inl x
      | inr cs => ok [Element name None cs]
      end
  | POther s =>
      raise (NotImplementedError ("Unable to serialize " ++ name ++ "=" ++ s))
  end.

Definition entry_elements (entry : string * pyval)
  : result (list element) :=
  encode (fst entry) (snd entry).

(** The document of a Map: one root, the entries encoded in order. *)
Definition document (root : string) (m : Dict.t) : result element :=
  cs <~ concat_map entry_elements m ;;
  ok (Element root None cs).

End Spec.

(** *** Round trip *)

(** What a marshalled value reads back as: scalars in their string form, a
    one-item list as the bare item, a map without its null fields. *)
Fixpoint read_back (v : pyval) : pyval :=
  match v with
  | PStr s => PStr s
  | PInt z => PStr (PyStr.of_Z z)
  | PFloat f => PStr f
  | PList items =>
      match items with
      | [item] => read_back item
      | _ => PList (map read_back items)
      end
  | PDict d =>
      PDict (flat_map (fun kv => if Py.is_none (snd kv) then []
                                 else [(fst kv, read_back (snd kv))]) d)
  | _ => v
  end.

Definition read_back_entries (d : Dict.t) : Dict.t :=
  flat_map (fun kv => if Py.is_none (snd kv) then []
                      else [(fst kv, read_back (snd kv))]) d.

Fixpoint distinct (l : list string) : bool :=
  match l with
  | [] => true
  | k :: l' => negb (existsb (String.eqb k) l') && distinct l'
  end.

(** A list item that stands for one element: not null and not a list. *)
Definition is_item (v : pyval) : bool :=
  match v with
  | PNone | PList _ => false
  | _ => true
  end.

(** The values the round trip is stated for: scalars (an [int] within the
    limit of [str]), non-empty lists of items, and maps with distinct keys and a field that is not null; the
    fields of a map are null or of this kind again. *)
Fixpoint storable (v : pyval) : bool :=
  match v with
  | PStr _ | PFloat _ => true
  | PInt z => PyStr.fits z
  | PList items =>
      match items with [] => false | _ => true end
      && forallb (fun i => is_item i && storable i) items
  | PDict d =>
      distinct (map fst d)
      && existsb (fun kv => negb (Py.is_none (snd kv))) d
      && forallb (fun kv => Py.is_none (snd kv) || storable (snd kv)) d
  | _ => false
  end.

Definition storable_entries (d : Dict.t) : bool :=
  distinct (map fst d)
  && forallb (fun kv => Py.is_none (snd kv) || storable (snd kv)) d.

(** What [encode] emits for a storable value reads back as [read_back]. *)
Definition reads_back (v : pyval) : Prop :=
  storable v = true ->
  forall k, exists cs,
    Spec.encode k v = ok cs /\ cs <> [] /\
    grouped (map XML.unmarshal cs) = Some (read_back v).

(** *** Zones and requests *)

(** The resource records of a zone, a bare record standing for a list of
    one. *)
Definition zone_records (info : pyval) : list pyval :=
  match info with
  | PDict d =>
      match Dict.get d "rr" with
      | Some (PList l) => l
      | Some rr => [rr]
      | None => []
      end
  | _ => []
  end.

(** A resource record: a map with a name and a string value. *)
Definition is_record (rr : pyval) : bool :=
  match rr with
  | PDict d =>
      match Dict.get d "name", Dict.get d "value" with
      | Some _, Some (PStr _) => true
      | _, _ => false
      end
  | _ => false
  end.

(** A record under the relative name [prefix] with another value than
    [validation]. *)
Definition conflicts (prefix validation : string) (rr : pyval) : bool :=
  match rr with
  | PDict d =>
      match Dict.get d "name", Dict.get d "value" with
      | Some (PStr n), Some (PStr v) =>
          String.eqb n prefix && negb (String.eqb v validation)
      | _, _ => false
      end
  | _ => false
  end.

(** The same, with the value [validation] itself. *)
Definition matches (prefix validation : string) (rr : pyval) : bool :=
  match rr with
  | PDict d =>
      match Dict.get d "name", Dict.get d "value" with
      | Some (PStr n), Some (PStr v) =>
          String.eqb n prefix && String.eqb v validation
      | _, _ => false
      end
  | _ => false
  end.

(** The task code of a posted request: the text of [request/task/code]. *)
Definition task_code (req : element) : option string :=
  match find (fun c => String.eqb (tag c) "task") (children req) with
  | Some t =>
      match find (fun c => String.eqb (tag c) "code") (children t) with
      | Some c => text c
      | None => None
      end
  | None => None
  end.

(** *** Sample gateway exchanges *)

Module Sample.

Definition self : client := Client "54321" "PASSWORD" "10" 60.

Definition repr (_ : pyval) : string := "<value>".
Definition repr_error (_ : transport_error) : string := "<error>".

(** [<rr><name>n</name><type>TXT</type><value>v</value><ttl>60</ttl></rr>] *)
Definition record (n v : string) : element :=
  Element "rr" None
    [Element "name" (Some n) []; Element "type" (Some "TXT") [];
     Element "value" (Some v) []; Element "ttl" (Some "60") []].

(** The reply to a zone query for [example.com], holding the records
    [rrs]. *)
Definition zone_reply (rrs : list element) : element :=
  Element "response" None
    [Element "result" None
       [Element "status" None [Element "type" (Some "success") []];
        Element "data" None
          [Element "zone" None
             ([Element "name" (Some "example.com") [];
               Element "system_ns" (Some "a.ns.de") [];
               Element "soa" None [Element "level" (Some "1") []]]
              ++ rrs)]]].

(** The reply to a zone update: the status type and what follows it. *)
Definition update_reply (ty : string) (more : list element) : element :=
  Element "response" None
    [Element "result" None
       [Element "status" None (Element "type" (Some ty) [] :: more)]].

(** A gateway that answers the first request with [first] and every later
    one with [later]. *)
Definition gw (first later : element) : gateway :=
  fun history _ =>
    match history with
    | [] => Reply first
    | _ => Reply later
    end.

(** An answer that is XML but no gateway response. *)
Definition error_page : element :=
  Element "html" None [Element "body" (Some "Service unavailable") []].

Definition zone_task : pyval :=
  PDict [("code", PStr "0205"); ("zone", PDict [("name", PStr "example.com")])].

End Sample.

(** ** Class [Authenticator]

    [conf] stands for [self.credentials.conf], the lookup in the credentials
    file that the plugin framework has loaded; the class attribute [ttl] is
    60. *)

Section Authenticator.

Variable repr : pyval -> string.
Variable repr_error : transport_error -> string.
Variable gw : gateway.
Variable conf : string -> string.

Definition Authenticator_ttl : Z := 60.

Definition _get_gateway_client : client :=
  Client (conf "user") (conf "password") (conf "context") Authenticator_ttl.


Definition _cleanup (domain validation_name validation : string) : M unit :=
  del_txt_record repr repr_error gw _get_gateway_client
    domain validation_name validation.

End Authenticator.

(** *** Tasks and requests *)

(** The task of [_zone_info]. *)
Definition lookup_task (domain : string) : pyval :=
  PDict [("code", PStr "0205"); ("zone", PDict [("name", PStr domain)])].

(** The record that [add_txt_record] and [del_txt_record] send. *)
Definition txt_record (self : client) (domain validation_name validation : string)
  : pyval :=
  PDict [("name", PStr (_strip_domain domain validation_name));
         ("type", PStr "TXT");
         ("value", PStr validation);
         ("ttl", PInt (ttl self))].


(** The task of [del_txt_record]. *)
Definition rem_task (self : client) (domain : string) (system_ns : pyval)
  (validation_name validation : string) : pyval :=
  PDict [("code", PStr "0202001");
         ("zone", PDict [("name", PStr domain); ("system_ns", system_ns)]);
         ("default",
          PDict [("rr_rem", txt_record self domain validation_name validation)])].

(** The request that [_call] builds around a task. *)
Definition envelope (self : client) (task : pyval) : Dict.t :=
  [("auth", _auth self); ("language", PStr "en"); ("task", task)].

Definition auth_element (self : client) : element :=
  Element "auth" None
    [Element "user" (Some (user self)) [];
     Element "password" (Some (password self)) [];
     Element "context" (Some (context self)) []].

(** The request of the zone lookup, as posted. *)
Definition lookup_request (self : client) (domain : string) : element :=
  Element "request" None
    [auth_element self;
     Element "language" (Some "en") [];
     Element "task" None
       [Element "code" (Some "0205") [];
        Element "zone" None [Element "name" (Some domain) []]]].

(** The element of the record in a zone update, under the tag [kind]
    ([rr_add] or [rr_rem]). *)
Definition record_element (kind name validation : string) (ttl : Z)
  : element :=
  Element kind None
    [Element "name" (Some name) [];
     Element "type" (Some "TXT") [];
     Element "value" (Some validation) [];
     Element "ttl" (Some (PyStr.of_Z ttl)) []].

(** The request of a zone update, as posted: [ns] are the elements of the
    zone's [system_ns], [more] what follows the record under [default]. *)
Definition update_request (self : client) (domain : string)
  (ns : list element) (record : element) (more : list element) : element :=
  Element "request" None
    [auth_element self;
     Element "language" (Some "en") [];
     Element "task" None
       [Element "code" (Some "0202001") [];
        Element "zone" None (Element "name" (Some domain) [] :: ns);
        Element "default" None (record :: more)]].

(** What follows the name in the message of a rejected update. *)
Definition text_suffix (t : option string) : string :=
  match t with
  | Some s => nl ++ s
  | None => ""
  end.

(** A posted document that is the request of some task: the credentials,
    the language, then the elements of the task. *)
Definition enveloped (self : client) (req : element) : Prop :=
  exists task es,
    Spec.encode "task" task = ok es
    /\ req = Element "request" None
               (auth_element self :: Element "language" (Some "en") [] :: es).

(** A run of [m] posts at most [n] requests, all of them requests of
    tasks, and takes nothing back from what was posted or logged before. *)
Definition posts {A} (self : client) (n : nat) (m : M A) : Prop :=
  forall w w' r,
    m w = (w', r) ->
    exists reqs lines,
      sent w' = sent w ++ reqs
      /\ log w' = log w ++ lines
      /\ List.length reqs <= n
      /\ Forall (enveloped self) reqs.

(** The message of the plugin error for a failed transport. *)
Definition communication_error (e : transport_error) : string :=
  match e with
  | HTTPError code reason =>
      "Communication error while calling " ++ GATEWAY_URL ++ nl
      ++ "Response: " ++ PyStr.of_Z code ++ ", " ++ reason
  | URLError reason =>
      "Communication error while calling " ++ GATEWAY_URL ++ nl
      ++ "Reason: " ++ reason
  end.

(** The value of a record, [None] where it has none. *)
Definition record_value (rr : pyval) : pyval :=
  match Py.getitem rr "value" with
  | inr v => v
  | inl _ => PNone
  end.

(** *** Shapes of values and elements *)

(** No value that [_marshal_value] refuses occurs anywhere in [v]. *)
Fixpoint serializable (v : pyval) : bool :=
  match v with
  | POther _ => false
  | PList l => forallb serializable l
  | PDict d => forallb (fun kv => serializable (snd kv)) d
  | PObj d => forallb (fun kv => serializable (snd kv)) d
  | _ => true
  end.

(** An element carries a text and no child, or no text. *)
Fixpoint leaf_or_branch (e : element) : bool :=
  match e with
  | Element _ (Some _) cs => match cs with [] => true | _ => false end
  | Element _ None cs => forallb leaf_or_branch cs
  end.

(** The tags of a list, each at its first occurrence. *)
Definition first_seen (tags : list string) : list string :=
  fold_left (fun acc t => if existsb (String.eqb t) acc then acc
                          else acc ++ [t]) tags [].

(** What a field of an unmarshalled dict holds: a value that is no list, or
    a list of two or more values that are no lists. *)
Definition field_shape (shape : pyval -> bool) (x : pyval) : bool :=
  match x with
  | PList l =>
      (2 <=? List.length l)%nat
      && forallb (fun i => negb (Py.is_list i) && shape i) l
  | _ => shape x
  end.

Fixpoint wire_shape (v : pyval) : bool :=
  match v with
  | PNone => true
  | PStr _ => true
  | PDict d => forallb (fun kv => field_shape wire_shape (snd kv)) d
  | _ => false
  end.

(** Every element of the tree has a text or a child: there is no empty
    element. *)
Fixpoint full (e : element) : bool :=
  match e with
  | Element _ (Some _) _ => true
  | Element _ None cs =>
      match cs with [] => false | _ => true end && forallb full cs
  end.

(** A value that stands for one element and that the round trip gives
    back as it is; a field that holds such a value, or a list of two or more
    of them. *)
Definition item_stable (i : pyval) : Prop :=
  is_item i = true /\ storable i = true /\ read_back i = i.

Definition field_stable (x : pyval) : Prop :=
  match x with
  | PList l => 2 <= List.length l /\ Forall item_stable l
  | _ => item_stable x
  end.

(** [s] without its dots. *)
Fixpoint remove_dots (s : string) : string :=
  match s with
  | EmptyString => EmptyString
  | String c s' =>
      if Ascii.eqb c "."%char then remove_dots s'
      else String c (remove_dots s')
  end.

(** * Properties *)

(** ** Dictionaries *)

Section DictFacts.

Implicit Types (d : Dict.t) (k : string) (v : pyval).

Lemma get_set_same d k v : Dict.get (Dict.set d k v) k = Some v.
Proof.
  induction d as [|[k' v'] d IH]; simpl.
  - now rewrite String.eqb_refl.
  - destruct (String.eqb k' k) eqn:E; simpl; now rewrite E.
Qed.

Lemma get_set_other d k k' v :
  k <> k' -> Dict.get (Dict.set d k v) k' = Dict.get d k'.
Proof.
  intros Hne. induction d as [|[k0 v0] d IH]; simpl.
  - destruct (String.eqb k k') eqn:E; [|reflexivity].
    apply String.eqb_eq in E. contradiction.
  - destruct (String.eqb k0 k) eqn:E; simpl.
    + apply String.eqb_eq in E. subst k0.
      destruct (String.eqb k k') eqn:E'; [|reflexivity].
      apply String.eqb_eq in E'. contradiction.
    + now rewrite IH.
Qed.

Lemma set_fresh d k v :
  Dict.get d k = None -> Dict.set d k v = d ++ [(k, v)].
Proof.
  induction d as [|[k' v'] d IH]; simpl; [reflexivity|].
  destruct (String.eqb k' k); [discriminate|].
  intros H. now rewrite IH.
Qed.

Lemma set_not_nil d k v : Dict.set d k v <> [].
Proof.
  destruct d as [|[k' v'] d]; simpl; [discriminate|].
  destruct (String.eqb k' k); discriminate.
Qed.

Lemma get_app d d' k :
  Dict.get (d ++ d') k =
  match Dict.get d k with Some x => Some x | None => Dict.get d' k end.
Proof.
  induction d as [|[k' v'] d IH]; simpl; [reflexivity|].
  now destruct (String.eqb k' k).
Qed.

Lemma get_none_keys d k : Dict.get d k = None <-> ~ In k (Dict.keys d).
Proof.
  induction d as [|[k' v'] d IH]; simpl.
  - tauto.
  - destruct (String.eqb k' k) eqn:E.
    + apply String.eqb_eq in E. split; [discriminate|]. intros H. tauto.
    + apply String.eqb_neq in E. rewrite IH. tauto.
Qed.

Lemma get_forallb (p : pyval -> bool) d k v :
  forallb (fun kv => p (snd kv)) d = true ->
  Dict.get d k = Some v -> p v = true.
Proof.
  induction d as [|[k' v'] d IH]; simpl; [discriminate|].
  intros H. apply andb_prop in H as [H1 H2].
  destruct (String.eqb k' k); [|now apply IH].
  intros [= <-]. exact H1.
Qed.

Lemma set_forallb (p : pyval -> bool) d k v :
  forallb (fun kv => p (snd kv)) d = true -> p v = true ->
  forallb (fun kv => p (snd kv)) (Dict.set d k v) = true.
Proof.
  intros H Hv. induction d as [|[k' v'] d IH]; simpl in *.
  - now rewrite Hv.
  - apply andb_prop in H as [H1 H2].
    destruct (String.eqb k' k); simpl.
    + now rewrite Hv, H2.
    + now rewrite H1, IH.
Qed.

End DictFacts.

(** ** Elements *)

(** Induction over an element with the hypothesis on all its children. *)
Lemma element_forall_ind (P : element -> Prop) :
  (forall tg txt cs, Forall P cs -> P (Element tg txt cs)) ->
  forall e, P e.
Proof.
  intros step.
  fix IH 1. intros [tg txt cs]. apply step.
  induction cs as [|c cs IHcs]; constructor; [apply IH | exact IHcs].
Qed.

(** ** [unmarshal] *)

Section UnmarshalFacts.

Import XML.

Lemma unmarshal_eq tg txt cs :
  unmarshal (Element tg txt cs) =
  match txt with
  | Some t => PStr t
  | None =>
      match cs with
      | [] => PNone
      | _ => PDict (fold_left turn cs [])
      end
  end.
Proof. destruct txt, cs; reflexivity. Qed.

Lemma unmarshal_not_list e : Py.is_list (unmarshal e) = false.
Proof. destruct e as [tg [t|] [|c cs]]; reflexivity. Qed.

Lemma step_is_set res name v :
  exists x, unmarshal_step res name v = Dict.set res name x.
Proof.
  unfold unmarshal_step.
  destruct (Dict.get res name) as [[]|]; eauto.
Qed.

Lemma step_not_list res name old v :
  Dict.get res name = Some old -> Py.is_list old = false ->
  unmarshal_step res name v = Dict.set res name (PList [old; v]).
Proof.
  unfold unmarshal_step. intros ->. now destruct old.
Qed.

Lemma tagged_snoc name cs c :
  tagged name (cs ++ [c]) =
  tagged name cs ++ (if String.eqb (tag c) name then [c] else []).
Proof.
  unfold tagged. rewrite filter_app. simpl.
  now destruct (String.eqb (tag c) name).
Qed.

(** After the loop, a field holds what its tag was met with. *)
Lemma fold_turn_get cs name :
  Dict.get (fold_left turn cs []) name
  = grouped (map unmarshal (tagged name cs)).
Proof.
  induction cs as [|c cs IH] using rev_ind; [reflexivity|].
  rewrite fold_left_app, tagged_snoc. simpl.
  set (acc := fold_left turn cs []) in *.
  unfold turn at 1.
  destruct (String.eqb (tag c) name) eqn:E.
  - apply String.eqb_eq in E. subst name.
    rewrite map_app. simpl.
    remember (tagged (tag c) cs) as sel eqn:Hsel.
    destruct sel as [|c0 [|c1 sel]]; simpl in *.
    + unfold unmarshal_step. rewrite IH. apply get_set_same.
    + rewrite (step_not_list _ _ _ _ IH (unmarshal_not_list c0)).
      apply get_set_same.
    + unfold unmarshal_step. rewrite IH. rewrite get_set_same.
      reflexivity.
  - rewrite app_nil_r.
    destruct (step_is_set acc (tag c) (unmarshal c)) as [x ->].
    rewrite get_set_other; [exact IH|].
    now apply String.eqb_neq.
Qed.

Lemma fold_turn_not_nil cs acc :
  acc <> [] \/ cs <> [] -> fold_left turn cs acc <> [].
Proof.
  revert acc. induction cs as [|c cs IH]; intros acc H; simpl.
  - destruct H as [H|H]; [exact H | contradiction].
  - apply IH. left. unfold turn.
    destruct (step_is_set acc (tag c) (unmarshal c)) as [x ->].
    apply set_not_nil.
Qed.

Lemma step_unmarshalled res name v :
  forallb (fun kv => unmarshalled (snd kv)) res = true ->
  unmarshalled v = true ->
  forallb (fun kv => unmarshalled (snd kv)) (unmarshal_step res name v) = true.
Proof.
  intros Hres Hv. unfold unmarshal_step.
  destruct (Dict.get res name) as [old|] eqn:G.
  - pose proof (get_forallb unmarshalled _ _ _ Hres G) as Hold.
    assert (Hpair : unmarshalled (PList [old; v]) = true).
    { cbn [unmarshalled forallb]. now rewrite Hold, Hv. }
    destruct old; try (now apply set_forallb).
    apply set_forallb; [assumption|].
    cbn [unmarshalled] in Hold |- *. apply andb_prop in Hold as [H1 H2].
    rewrite forallb_app. cbn [forallb]. rewrite H2, Hv.
    now destruct items.
  - now apply set_forallb.
Qed.

Lemma fold_turn_unmarshalled cs acc :
  Forall (fun c => unmarshalled (unmarshal c) = true) cs ->
  forallb (fun kv => unmarshalled (snd kv)) acc = true ->
  forallb (fun kv => unmarshalled (snd kv)) (fold_left turn cs acc) = true.
Proof.
  intros H. revert acc. induction H as [|c cs Hc _ IH]; intros acc Hacc; simpl.
  - exact Hacc.
  - apply IH. now apply step_unmarshalled.
Qed.

Lemma unmarshal_unmarshalled e :
  texts_nonempty e = true -> unmarshalled (unmarshal e) = true.
Proof.
  induction e as [tg txt cs IH] using element_forall_ind.
  simpl texts_nonempty. intros H. apply andb_prop in H as [Ht Hcs].
  rewrite unmarshal_eq. destruct txt as [t|]; [exact Ht|].
  destruct cs as [|c cs]; [reflexivity|].
  assert (Hall : Forall (fun c => unmarshalled (unmarshal c) = true) (c :: cs)).
  { rewrite forallb_forall in Hcs. rewrite Forall_forall in *.
    intros x Hx. apply IH; [exact Hx | now apply Hcs]. }
  cbn [unmarshalled].
  rewrite (fold_turn_unmarshalled _ [] Hall eq_refl), andb_true_r.
  pose proof (fold_turn_not_nil (c :: cs) []) as Hne.
  destruct (fold_left turn (c :: cs) []); [|reflexivity].
  exfalso. apply Hne; [right; discriminate | reflexivity].
Qed.

End UnmarshalFacts.

(** ** Values *)

(** Induction over a value with the hypothesis on all the values it holds. *)
Lemma pyval_forall_ind (P : pyval -> Prop) :
  P PNone ->
  (forall s, P (PStr s)) ->
  (forall z, P (PInt z)) ->
  (forall f, P (PFloat f)) ->
  (forall items, Forall P items -> P (PList items)) ->
  (forall d, Forall (fun kv => P (snd kv)) d -> P (PDict d)) ->
  (forall d, Forall (fun kv => P (snd kv)) d -> P (PObj d)) ->
  (forall s, P (POther s)) ->
  forall v, P v.
Proof.
  intros HN HS HI HF HL HD HO HX.
  fix IH 1.
  intros [ | s | z | f | items | d | d | s];
    [exact HN | apply HS | apply HI | apply HF | | | | apply HX].
  - apply HL. induction items as [|i items IHi]; constructor;
      [apply IH | exact IHi].
  - apply HD. induction d as [|[k v] d IHd]; constructor;
      [apply IH | exact IHd].
  - apply HO. induction d as [|[k v] d IHd]; constructor;
      [apply IH | exact IHd].
Qed.

(** ** [marshal] *)

Section MarshalFacts.

Import XML.
Local Open Scope result_scope.

Lemma extend_nil e : extend e [] = e.
Proof. destruct e. simpl. now rewrite app_nil_r. Qed.

Lemma extend_extend e es es' : extend (extend e es) es' = extend e (es ++ es').
Proof. destruct e. simpl. now rewrite app_assoc. Qed.

Lemma append_extend e m : append e m = extend e [m].
Proof. now destruct e. Qed.

(** A loop that adds children to an element adds, in all, what its turns
    add one after the other. *)
Lemma for_each_concat_map {A} (body : A -> element -> result element)
  (f : A -> result (list element)) (l : list A) :
  Forall (fun a => forall e, body a e = (es <~ f a ;; ok (extend e es))) l ->
  forall e,
    for_each body l e = (es <~ Spec.concat_map f l ;; ok (extend e es)).
Proof.
  induction 1 as [|a l Ha _ IH]; intros e; simpl.
  - unfold ok. now rewrite extend_nil.
  - rewrite Ha. destruct (f a) as [x|es]; simpl; [reflexivity|].
    rewrite IH. destruct (Spec.concat_map f l) as [x|es']; simpl;
      [reflexivity|].
    unfold ok. now rewrite extend_extend.
Qed.

(** [_marshal_value] adds to [e] the elements of the Value-to-element
    rule, and fails where the rule fails. *)
Lemma marshal_value_encode v :
  forall e tg,
    _marshal_value v e tg
    = (es <~ Spec.encode tg v ;; ok (extend e es)).
Proof.
  induction v as [ | s | z | f | items IH | d IH | d IH | s]
    using pyval_forall_ind; intros e tg; simpl;
    try (now rewrite ?extend_nil; unfold SubElement_text;
         rewrite ?append_extend).
  - destruct (str_int z); simpl; [reflexivity|].
    unfold SubElement_text. now rewrite append_extend.
  - apply for_each_concat_map.
    rewrite Forall_forall in *. intros i Hi e'. now apply IH.
  - rewrite (for_each_concat_map _ Spec.entry_elements).
    + unfold Spec.entry_elements.
      destruct (Spec.concat_map _ d); simpl; [reflexivity|].
      now rewrite append_extend.
    + rewrite Forall_forall in *. intros kv Hkv e'. now apply IH.
  - rewrite (for_each_concat_map _ Spec.entry_elements).
    + unfold Spec.entry_elements.
      destruct (Spec.concat_map _ d); simpl; [reflexivity|].
      now rewrite append_extend.
    + rewrite Forall_forall in *. intros kv Hkv e'. now apply IH.
Qed.

Lemma marshal_document tg d : marshal tg d = Spec.document tg d.
Proof.
  unfold marshal, Spec.document.
  rewrite (for_each_concat_map _ Spec.entry_elements).
  - reflexivity.
  - rewrite Forall_forall. intros kv _ e. apply marshal_value_encode.
Qed.

Lemma concat_map_forall {A} (Q : element -> Prop)
  (f : A -> result (list element)) (l : list A) :
  Forall (fun a => forall es, f a = ok es -> Forall Q es) l ->
  forall cs, Spec.concat_map f l = ok cs -> Forall Q cs.
Proof.
  induction 1 as [|a l Ha _ IH]; intros cs; simpl.
  - intros [= <-]. constructor.
  - destruct (f a) as [x|es] eqn:Ea; [discriminate|].
    destruct (Spec.concat_map f l) as [x|es']; [discriminate|].
    intros [= <-]. apply Forall_app. split; [now apply Ha | now apply IH].
Qed.

(** Every element emitted for an entry carries the name of the entry. *)
Lemma encode_tags v :
  forall k es, Spec.encode k v = ok es -> Forall (fun c => tag c = k) es.
Proof.
  induction v as [ | s | z | f | items IH | d _ | d _ | s]
    using pyval_forall_ind; intros k es; simpl;
    try (intros [= <-]; repeat constructor); try discriminate.
  - destruct (str_int z); [discriminate|].
    intros [= <-]. repeat constructor.
  - apply concat_map_forall.
    rewrite Forall_forall in *. intros i Hi es'. now apply IH.
  - destruct (Spec.concat_map _ d); [discriminate|].
    intros [= <-]. repeat constructor.
  - destruct (Spec.concat_map _ d); [discriminate|].
    intros [= <-]. repeat constructor.
Qed.

Lemma document_tags d cs :
  Spec.concat_map Spec.entry_elements d = ok cs ->
  Forall (fun c => In (tag c) (Dict.keys d)) cs.
Proof.
  revert cs. induction d as [|[k v] d IH]; intros cs; simpl.
  - intros [= <-]. constructor.
  - unfold Spec.entry_elements at 1. simpl.
    destruct (Spec.encode k v) as [x|es] eqn:Ev; [discriminate|].
    destruct (Spec.concat_map Spec.entry_elements d) as [x|es']; [discriminate|].
    intros [= <-]. apply Forall_app. split.
    + apply encode_tags in Ev.
      eapply Forall_impl; [|exact Ev]. simpl. intros c ->. now left.
    + eapply Forall_impl; [|now apply IH]. simpl. tauto.
Qed.

(** An entry that emits nothing can be left out. *)
Lemma concat_map_skip d1 entry d2 :
  Spec.entry_elements entry = ok [] ->
  Spec.concat_map Spec.entry_elements (d1 ++ entry :: d2)
  = Spec.concat_map Spec.entry_elements (d1 ++ d2).
Proof.
  intros Hx. induction d1 as [|a d1 IH]; simpl.
  - rewrite Hx. now destruct (Spec.concat_map Spec.entry_elements d2).
  - now rewrite IH.
Qed.

Lemma tagged_none k cs :
  Forall (fun c => tag c <> k) cs -> tagged k cs = [].
Proof.
  induction 1 as [|c cs Hc _ IH]; simpl; [reflexivity|].
  apply String.eqb_neq in Hc. now rewrite Hc.
Qed.

End MarshalFacts.

(** ** Round trip *)

Section RoundTripFacts.

Import XML.

Lemma set_last acc k v x :
  Dict.get acc k = None ->
  Dict.set (acc ++ [(k, v)]) k x = acc ++ [(k, x)].
Proof.
  induction acc as [|[k' v'] acc IH]; simpl.
  - now rewrite String.eqb_refl.
  - destruct (String.eqb k' k); [discriminate|].
    intros H. now rewrite IH.
Qed.

Lemma get_last acc k v :
  Dict.get acc k = None -> Dict.get (acc ++ [(k, v)]) k = Some v.
Proof.
  intros H. rewrite get_app, H. simpl. now rewrite String.eqb_refl.
Qed.

(** Further children under a tag that already holds a list. *)
Lemma fold_turn_more cs : forall acc k l,
  Forall (fun c => tag c = k) cs ->
  Dict.get acc k = None ->
  fold_left turn cs (acc ++ [(k, PList l)])
  = acc ++ [(k, PList (l ++ map unmarshal cs))].
Proof.
  induction cs as [|c cs IH]; intros acc k l Hk Hacc; simpl.
  - now rewrite app_nil_r.
  - apply Forall_cons_iff in Hk as [Hc Hcs].
    unfold turn at 2. rewrite Hc. unfold unmarshal_step.
    rewrite (get_last _ _ _ Hacc), (set_last _ _ _ _ Hacc).
    rewrite (IH _ _ _ Hcs Hacc). now rewrite <- app_assoc.
Qed.

(** The children emitted for one entry, met under a fresh tag, leave one
    new field behind. *)
Lemma fold_turn_group cs k acc g :
  Forall (fun c => tag c = k) cs ->
  Dict.get acc k = None ->
  grouped (map unmarshal cs) = Some g ->
  fold_left turn cs acc = acc ++ [(k, g)].
Proof.
  intros Hk Hacc Hg.
  destruct cs as [|c0 cs]; [discriminate|].
  apply Forall_cons_iff in Hk as [Hc0 Hcs].
  simpl fold_left. unfold turn at 2. rewrite Hc0. unfold unmarshal_step.
  rewrite Hacc, (set_fresh _ _ _ Hacc).
  destruct cs as [|c1 cs].
  - simpl in *. now injection Hg as <-.
  - apply Forall_cons_iff in Hcs as [Hc1 Hcs'].
    simpl fold_left. unfold turn at 2.
    rewrite Hc1.
    rewrite (step_not_list _ _ _ _ (get_last _ _ _ Hacc)
               (unmarshal_not_list c0)).
    rewrite (set_last _ _ _ _ Hacc).
    rewrite (fold_turn_more _ _ _ _ Hcs' Hacc).
    simpl in Hg. now injection Hg as <-.
Qed.

Lemma distinct_cons k l :
  distinct (k :: l) = true -> ~ In k l /\ distinct l = true.
Proof.
  simpl. intros H. apply andb_prop in H as [H1 H2]. split; [|exact H2].
  intros Hin. apply negb_true_iff in H1.
  assert (existsb (String.eqb k) l = true) as E.
  { apply existsb_exists. exists k. split; [exact Hin|].
    apply String.eqb_refl. }
  congruence.
Qed.

Lemma encode_item_single v k cs :
  is_item v = true -> Spec.encode k v = ok cs -> exists c, cs = [c].
Proof.
  destruct v; simpl; try discriminate; intros _;
    try (intros [= <-]; eauto).
  - destruct (str_int z); [discriminate|].
    intros [= <-]; eauto.
  - destruct (Spec.concat_map _ entries); [discriminate|].
    intros [= <-]; eauto.
  - destruct (Spec.concat_map _ attrs); [discriminate|].
    intros [= <-]; eauto.
Qed.

Lemma concat_map_cons {A} (f : A -> result (list element)) a l :
  Spec.concat_map f (a :: l) =
  match f a with
  | inl x => inl x
  | inr es =>
      match Spec.concat_map f l with
      | inl x => inl x
      | inr es' => ok (es ++ es')
      end
  end.
Proof. reflexivity. Qed.

Lemma read_back_dict d : read_back (PDict d) = PDict (read_back_entries d).
Proof. reflexivity. Qed.

Lemma read_back_list items :
  items <> [] -> grouped (map read_back items) = Some (read_back (PList items)).
Proof.
  destruct items as [|i [|j items]]; [contradiction| |]; reflexivity.
Qed.

Lemma items_read_back k items :
  Forall reads_back items ->
  forallb (fun i => is_item i && storable i) items = true ->
  exists cs, Spec.concat_map (Spec.encode k) items = ok cs /\
             map unmarshal cs = map read_back items.
Proof.
  induction 1 as [|i items Hi _ IH]; simpl; intros Hall.
  - exists []. split; reflexivity.
  - apply andb_prop in Hall as [Hitem Hall].
    apply andb_prop in Hitem as [Hitem Hst].
    destruct (Hi Hst k) as (cs & Hcs & _ & Hg).
    destruct (encode_item_single _ _ _ Hitem Hcs) as [c ->].
    destruct (IH Hall) as (cs' & Hcs' & Hmap).
    exists (c :: cs'). rewrite Hcs, Hcs'. split; [reflexivity|].
    simpl in *. injection Hg as ->. now rewrite Hmap.
Qed.

Lemma entries_read_back d :
  Forall (fun kv => reads_back (snd kv)) d ->
  distinct (map fst d) = true ->
  forallb (fun kv => Py.is_none (snd kv) || storable (snd kv)) d = true ->
  forall acc,
    (forall k, In k (Dict.keys d) -> Dict.get acc k = None) ->
    exists cs,
      Spec.concat_map Spec.entry_elements d = ok cs /\
      fold_left turn cs acc = acc ++ read_back_entries d.
Proof.
  induction 1 as [|[k v] d Hv _ IH]; intros Hdis Hall acc Hacc.
  - exists []. simpl. now rewrite app_nil_r.
  - apply distinct_cons in Hdis as [Hk Hdis].
    simpl in Hall. apply andb_prop in Hall as [Hkv Hall].
    simpl in Hv.
    destruct (Py.is_none v) eqn:En.
    + destruct v; try discriminate En.
      destruct (IH Hdis Hall acc) as (cs & Hcs & Hfold).
      { intros k' Hk'. apply Hacc. now right. }
      exists cs. rewrite concat_map_cons.
      change (Spec.entry_elements (k, PNone)) with (Spec.encode k PNone).
      simpl Spec.encode. cbv iota. rewrite Hcs.
      split; [reflexivity | exact Hfold].
    + simpl in Hkv.
      destruct (Hv Hkv k) as (es & Hes & _ & Hg).
      assert (Hfresh : Dict.get acc k = None) by (apply Hacc; now left).
      destruct (IH Hdis Hall (acc ++ [(k, read_back v)]))
        as (cs & Hcs & Hfold).
      { intros k' Hk'. rewrite get_app, Hacc by now right.
        simpl. destruct (String.eqb k k') eqn:E; [|reflexivity].
        apply String.eqb_eq in E. subst k'. contradiction. }
      exists (es ++ cs). rewrite concat_map_cons.
      change (Spec.entry_elements (k, v)) with (Spec.encode k v).
      rewrite Hes, Hcs. split; [reflexivity|].
      rewrite fold_left_app.
      rewrite (fold_turn_group es k acc (read_back v)
                 (encode_tags _ _ _ Hes) Hfresh Hg).
      rewrite Hfold. unfold read_back_entries. simpl. rewrite En.
      now rewrite <- app_assoc.
Qed.

Lemma read_back_entries_not_nil d :
  existsb (fun kv => negb (Py.is_none (snd kv))) d = true ->
  read_back_entries d <> [].
Proof.
  induction d as [|[k v] d IH]; simpl; [discriminate|].
  unfold read_back_entries. simpl.
  destruct (Py.is_none v); simpl; [exact IH | discriminate].
Qed.

Lemma storable_reads_back v : reads_back v.
Proof.
  induction v as [ | s | z | f | items IH | d IH | d IH | s]
    using pyval_forall_ind; intros Hst k; try discriminate Hst;
    try (eexists; split; [reflexivity | split; [discriminate | reflexivity]]).
  - simpl in Hst. exists [Element k (Some (PyStr.of_Z z)) []].
    cbn [Spec.encode]. unfold str_int. rewrite Hst.
    split; [reflexivity | split; [discriminate | reflexivity]].
  - simpl in Hst. apply andb_prop in Hst as [Hne Hall].
    destruct (items_read_back k items IH Hall) as (cs & Hcs & Hmap).
    exists cs. simpl. split; [exact Hcs|].
    assert (items <> []) as Hitems by (destruct items; discriminate).
    split.
    + intros ->. destruct items; [contradiction | discriminate].
    + rewrite Hmap. now apply read_back_list.
  - simpl in Hst. apply andb_prop in Hst as [Hst Hall].
    apply andb_prop in Hst as [Hdis Hex].
    destruct (entries_read_back d IH Hdis Hall []) as (cs & Hcs & Hfold);
      [reflexivity|].
    simpl in Hfold.
    exists [Element k None cs].
    split; [|split; [discriminate|]].
    + change (Spec.encode k (PDict d))
        with (match Spec.concat_map Spec.entry_elements d with
              | inl x => inl x
              | inr cs => ok [Element k None cs]
              end).
      now rewrite Hcs.
    + rewrite read_back_dict. cbn [map grouped]. rewrite unmarshal_eq.
      destruct cs as [|c cs].
      * simpl in Hfold. symmetry in Hfold.
        now apply read_back_entries_not_nil in Hfold.
      * now rewrite Hfold.
Qed.

Lemma read_back_entries_get d k v :
  distinct (map fst d) = true ->
  In (k, v) d -> v <> PNone ->
  Dict.get (read_back_entries d) k = Some (read_back v).
Proof.
  intros Hdis Hin Hv.
  induction d as [|[k0 v0] d IH]; [contradiction|].
  apply distinct_cons in Hdis as [Hk0 Hdis].
  unfold read_back_entries. simpl.
  destruct Hin as [[= -> ->]|Hin].
  - destruct v; try contradiction; simpl; now rewrite String.eqb_refl.
  - assert (k0 <> k) as Hne.
    { intros ->. apply Hk0. now apply (in_map fst) in Hin. }
    apply String.eqb_neq in Hne.
    destruct (Py.is_none v0); simpl; rewrite ?Hne; now apply IH.
Qed.

End RoundTripFacts.

(** ** The gateway client *)

Section ClientFacts.

Variable repr : pyval -> string.
Variable repr_error : transport_error -> string.
Variable gw : gateway.

Lemma log_call_error_ok self task response error w :
  exists w',
    _log_call_error repr repr_error
      (PDict [("auth", _auth self); ("language", PStr "en"); ("task", task)])
      response error w = (w', ok tt)
    /\ sent w' = sent w.
Proof.
  unfold _log_call_error, bind, lift, debug, ret. simpl.
  destruct (Py.is_none response), error; simpl; eauto.
Qed.

Ltac skip_log self task :=
  match goal with
  | |- context [_log_call_error _ _ _ ?resp ?e ?w0] =>
      let w' := fresh "w'" in
      destruct (log_call_error_ok self task resp e w0) as (w' & -> & _)
  end.

(** A call that returns has posted exactly one request, the document of
    the task. *)
Lemma call_sent self task w w1 r :
  _call repr repr_error gw self task w = (w1, ok r) ->
  exists req,
    XML.marshal "request"
      [("auth", _auth self); ("language", PStr "en"); ("task", task)]
    = ok req
    /\ sent w1 = sent w ++ [req].
Proof.
  unfold _call, XML.tostring, XML.fromstring.
  cbv beta iota zeta delta [bind lift post throw ok raise].
  destruct (XML.marshal "request" _) as [x|req]; [discriminate|].
  destruct (gw (sent w) req) as [body|[code reason|reason]];
    cbv beta iota.
  - destruct (Py.is_none (XML.unmarshal body)); cbn [negb];
      cbv beta iota.
    + skip_log self task. discriminate.
    + destruct (Py.getitem (XML.unmarshal body) "result") as [x|res];
        [discriminate|].
      cbv beta iota delta [rbind]. destruct (Py.is_none res); cbn [negb];
        cbv beta iota.
      * skip_log self task. discriminate.
      * intros [= <- _]. now exists req.
  - skip_log self task. discriminate.
  - skip_log self task. discriminate.
Qed.

(** What a call returns once the gateway has sent a document back. *)
Lemma call_reply self task w req body :
  XML.marshal "request"
    [("auth", _auth self); ("language", PStr "en"); ("task", task)]
  = ok req ->
  gw (sent w) req = Reply body ->
  snd (_call repr repr_error gw self task w)
  = match XML.unmarshal body with
    | PNone =>
        raise (PluginError
                 ("Unexpected response received from " ++ GATEWAY_URL))
    | PDict d =>
        match Dict.get d "result" with
        | None => raise (KeyError "result")
        | Some PNone =>
            raise (PluginError
                     ("Unexpected response received from " ++ GATEWAY_URL
                      ++ nl ++ repr (PDict d)))
        | Some r => ok r
        end
    | _ => raise TypeError
    end.
Proof.
  intros Hreq Hgw.
  unfold _call, XML.tostring, XML.fromstring.
  cbv beta iota zeta delta [bind lift post throw ok raise].
  rewrite Hreq. cbv beta iota delta [ok]. simpl sent. rewrite Hgw.
  cbv beta iota.
  destruct (XML.unmarshal body) as [ | s | z | f | l | d | d | s ];
    cbn [Py.is_none negb Py.getitem rbind]; cbv beta iota delta [raise];
    try reflexivity.
  destruct (Dict.get d "result") as [r|]; [|reflexivity].
  destruct r; reflexivity.
Qed.

(** A zone lookup that returns has posted one request, of code 0205. *)
Lemma zone_info_sent self domain w w1 info :
  _zone_info repr repr_error gw self domain w = (w1, ok info) ->
  exists lookup,
    sent w1 = sent w ++ [lookup] /\ task_code lookup = Some "0205".
Proof.
  unfold _zone_info.
  cbv beta iota zeta delta [bind].
  destruct (_call repr repr_error gw self _ w) as [w' [x|res]] eqn:Hcall;
    [discriminate|].
  apply call_sent in Hcall as (req & Hreq & Hsent).
  injection Hreq as <-.
  cbv beta iota delta [lift throw debug].
  match goal with
  | |- context [if Py.truthy res then ?a else ?b] =>
      destruct (if Py.truthy res then a else b) as [x|[|]]
  end; cbv beta iota; try discriminate.
  intros [= <- _]. eexists. split; [exact Hsent | reflexivity].
Qed.

(** The scan stops at the first record that conflicts. *)
Lemma scan_rr_conflict prefix validation rrs :
  forallb is_record rrs = true ->
  existsb (conflicts prefix validation) rrs = true ->
  exists v,
    scan_rr prefix validation rrs = ok (Some (PStr v))
    /\ String.eqb v validation = false.
Proof.
  induction rrs as [|rr rrs IH]; simpl; [discriminate|].
  intros Hrec Hex. apply andb_prop in Hrec as [Hrr Hrec].
  destruct rr as [ | | | | | d | | ]; try discriminate Hrr.
  simpl in Hrr, Hex |- *.
  destruct (Dict.get d "name") as [n|]; [|discriminate].
  destruct (Dict.get d "value") as [[ | v | | | | | | ]|];
    try discriminate Hrr.
  simpl.
  destruct n as [ | n | | | | | | ]; simpl in *; try (now apply IH).
  destruct (String.eqb n prefix); simpl in *; [|now apply IH].
  destruct (String.eqb v validation) eqn:Ev; simpl in *; [now apply IH|].
  exists v. now split.
Qed.

(** The scan never returns the value it is asked about. *)
Lemma scan_rr_differs prefix validation rrs x :
  scan_rr prefix validation rrs = ok (Some x) ->
  Py.eq_str x validation = false.
Proof.
  induction rrs as [|rr rrs IH]; simpl; [discriminate|].
  destruct (Py.getitem rr "name") as [e|n]; simpl; [discriminate|].
  destruct (Py.eq_str n prefix); [|exact IH].
  destruct (Py.getitem rr "value") as [e|v]; simpl; [discriminate|].
  destruct (Py.eq_str v validation) eqn:Ev; simpl; [exact IH|].
  now intros [= <-].
Qed.

Lemma current_value_conflict info domain validation_name validation :
  forallb is_record (zone_records info) = true ->
  existsb (conflicts (_strip_domain domain validation_name) validation)
          (zone_records info) = true ->
  exists info' v,
    _current_value info domain validation_name validation
    = ok (info', PStr v)
    /\ String.eqb v validation = false.
Proof.
  intros Hrec Hex. unfold _current_value.
  destruct info as [ | | | | | d | | ]; try discriminate Hex.
  simpl in Hrec, Hex. simpl Py.contains. unfold Dict.mem.
  simpl Py.getitem at 1.
  destruct (Dict.get d "rr") as [rr|] eqn:Hrr; [|discriminate Hex].
  cbn [rbind ok].
  assert (Hscan : forall items,
             zone_records (PDict d) = items ->
             exists v, scan_rr (_strip_domain domain validation_name)
                         validation items = ok (Some (PStr v))
                       /\ String.eqb v validation = false).
  { intros items <-. apply scan_rr_conflict; simpl; now rewrite Hrr. }
  destruct (Py.is_list rr) eqn:Hl; cbn [negb].
  - destruct rr; try discriminate Hl. cbn [rbind ok].
    simpl Py.getitem. rewrite Hrr. cbn [rbind ok Py.iter].
    destruct (Hscan items) as (v & -> & Hv); [simpl; now rewrite Hrr|].
    cbn [rbind ok]. eauto.
  - simpl Py.setitem. cbn [rbind ok]. simpl Py.getitem.
    rewrite get_set_same. cbn [rbind ok Py.iter].
    destruct (Hscan [rr]) as (v & -> & Hv).
    { simpl. rewrite Hrr. now destruct rr. }
    cbn [rbind ok]. eauto.
Qed.

(** Whatever [_current_value] returns differs from [validation]: the test
    [current_value == validation] of [add_txt_record] never holds. *)
Lemma current_value_differs info domain validation_name validation info' x :
  _current_value info domain validation_name validation = ok (info', x) ->
  Py.eq_str x validation = false.
Proof.
  unfold _current_value.
  destruct (Py.contains "rr" info) as [e|[|]]; simpl; try discriminate.
  - destruct (Py.getitem info "rr") as [e|rr]; simpl; [discriminate|].
    destruct (if negb (Py.is_list rr) then _ else _) as [e|info1]; simpl;
      [discriminate|].
    destruct (Py.getitem info1 "rr") as [e|rrs]; simpl; [discriminate|].
    destruct (Py.iter rrs) as [e|items]; simpl; [discriminate|].
    destruct (scan_rr _ validation items) as [e|[v|]] eqn:Hs; simpl;
      try discriminate.
    + intros [= _ <-]. eapply scan_rr_differs, Hs.
    + now intros [= _ <-].
  - now intros [= _ <-].
Qed.

End ClientFacts.

(** * The claims *)

(** ** [_strip_domain] *)

Example strip_domain_acme :
  _strip_domain "example.com" "_acme-challenge.example.com" = "_acme-challenge".
Proof. reflexivity. Qed.

Example strip_domain_other_zone :
  _strip_domain "example.com" "foo.other.com" = "foo.other.com".
Proof. reflexivity. Qed.

Example strip_domain_no_dot :
  _strip_domain "example.com" "notexample.com" = "notexample.com".
Proof. reflexivity. Qed.

Lemma strip_domain_not_suffix domain fqdn :
  PyStr.endswith fqdn domain = false -> _strip_domain domain fqdn = fqdn.
Proof. unfold _strip_domain. now intros ->. Qed.

Section StripDomainFacts.

Local Open Scope string_scope.

Lemma length_app (a b : string) :
  String.length (a ++ b) = String.length a + String.length b.
Proof. induction a as [|c a IH]; simpl; [reflexivity | now rewrite IH]. Qed.

Lemma app_assoc_str (a b c : string) : (a ++ b) ++ c = a ++ b ++ c.
Proof. induction a as [|x a IH]; simpl; [reflexivity | now rewrite IH]. Qed.

Lemma drop_app (a b : string) : PyStr.drop (String.length a) (a ++ b) = b.
Proof. induction a as [|c a IH]; simpl; [now destruct b | exact IH]. Qed.

Lemma startswith_app (a b : string) : PyStr.startswith (a ++ b) a = true.
Proof.
  unfold PyStr.startswith. induction a as [|c a IH]; simpl.
  - now destruct b.
  - destruct (ascii_dec c c) as [_|H]; [exact IH | now elim H].
Qed.

Lemma startswith_refl (a : string) : PyStr.startswith a a = true.
Proof.
  unfold PyStr.startswith. induction a as [|c a IH]; simpl; [reflexivity|].
  destruct (ascii_dec c c) as [_|H]; [exact IH | now elim H].
Qed.

Lemma replace_scan_skip_all old new s : forall k,
  String.length s <= k -> PyStr.replace_scan old new k s = "".
Proof.
  induction s as [|c s IH]; intros k Hk; simpl; [reflexivity|].
  destruct k as [|k]; simpl in Hk; [lia|]. apply IH. lia.
Qed.

Lemma endswith_app (a b : string) : PyStr.endswith (a ++ b) b = true.
Proof.
  unfold PyStr.endswith. rewrite length_app.
  replace (String.length a + String.length b - String.length b)
    with (String.length a) by lia.
  rewrite drop_app, String.eqb_refl, andb_true_r.
  apply Nat.leb_le. lia.
Qed.

(** Where ["." + domain] occurs in the name as its suffix only, the name
    loses exactly this suffix. *)
Lemma strip_domain_single_suffix domain p :
  (forall i, i < String.length p ->
     PyStr.startswith (PyStr.drop i (p ++ "." ++ domain)) ("." ++ domain)
     = false) ->
  _strip_domain domain (p ++ "." ++ domain) = p.
Proof.
  intros Hocc. unfold _strip_domain.
  rewrite <- app_assoc_str, endswith_app, app_assoc_str.
  unfold PyStr.replace.
  change ("." ++ domain) with (String "." domain) in *.
  induction p as [|c p IH].
  - change ("" ++ String "." domain) with (String "." domain).
    cbn [PyStr.replace_scan].
    rewrite startswith_refl.
    cbn [String.length Nat.sub]. rewrite Nat.sub_0_r.
    now rewrite replace_scan_skip_all.
  - change (String c p ++ String "." domain)
      with (String c (p ++ String "." domain)).
    cbn [PyStr.replace_scan].
    pose proof (Hocc 0 (Nat.lt_0_succ _)) as H0.
    change (PyStr.startswith (String c (p ++ String "." domain))
              (String "." domain) = false) in H0.
    rewrite H0. f_equal. apply IH. intros i Hi.
    apply (Hocc (S i)). simpl. lia.
Qed.

End StripDomainFacts.

(** C2: the name ends with the domain and holds ["." + domain] twice; the
    claim removes the trailing suffix only and keeps
    ["_acme-challenge.example.com"], where [_strip_domain] removes both
    occurrences. *)
Theorem C2_strip_domain_removes_every_occurrence :
  let domain := "example.com" in
  let fqdn := "_acme-challenge.example.com.example.com" in
  PyStr.endswith fqdn domain = true
  /\ fqdn = ("_acme-challenge.example.com" ++ "." ++ domain)%string
  /\ _strip_domain domain fqdn = "_acme-challenge"
  /\ _strip_domain domain fqdn <> "_acme-challenge.example.com".
Proof. repeat split; try reflexivity. discriminate. Qed.

(** ** [unmarshal] *)

Example unmarshal_one_rr :
  XML.unmarshal (Element "zone" None [Sample.record "a" "1"])
  = PDict [("rr", XML.unmarshal (Sample.record "a" "1"))].
Proof. reflexivity. Qed.

Example unmarshal_three_rr :
  XML.unmarshal (Element "zone" None
                   [Sample.record "a" "1"; Sample.record "b" "2";
                    Sample.record "c" "3"])
  = PDict [("rr", PList [XML.unmarshal (Sample.record "a" "1");
                         XML.unmarshal (Sample.record "b" "2");
                         XML.unmarshal (Sample.record "c" "3")])].
Proof. reflexivity. Qed.

(** C4, as stated, fails: an element that has a text is unmarshalled to
    that text, whatever children it has. *)
Lemma C4_text_hides_children :
  ~ (forall tg txt cs,
        cs <> [] ->
        exists d, XML.unmarshal (Element tg txt cs) = PDict d).
Proof.
  intros H.
  destruct (H "zone" (Some "hello") [Sample.record "a" "1"]) as [d Hd];
    discriminate.
Qed.

(** C4, amended: an element without text and with children is unmarshalled
    to the dict that the fold of [unmarshal_step] over the children in
    document order builds; in it a tag met once holds the bare value of its
    child, a tag met n >= 2 times the list of the n values in document order,
    and no other tag is present. *)
Theorem C4_children_grouped_by_tag tg cs :
  cs <> [] ->
  exists d,
    XML.unmarshal (Element tg None cs) = PDict d
    /\ d = fold_left XML.turn cs []
    /\ forall name,
         Dict.get d name = grouped (map XML.unmarshal (tagged name cs)).
Proof.
  intros Hcs. exists (fold_left XML.turn cs []).
  split; [|split; [reflexivity|]].
  - rewrite unmarshal_eq. destruct cs; [contradiction | reflexivity].
  - intros name. apply fold_turn_get.
Qed.

Lemma C4_children_grouped_by_tag_witness :
  exists d,
    XML.unmarshal (Element "zone" None
                     [Sample.record "a" "1"; Element "name" (Some "z") [];
                      Sample.record "b" "2"]) = PDict d
    /\ d = fold_left XML.turn
             [Sample.record "a" "1"; Element "name" (Some "z") [];
              Sample.record "b" "2"] []
    /\ forall name,
         Dict.get d name
         = grouped (map XML.unmarshal
                      (tagged name [Sample.record "a" "1";
                                    Element "name" (Some "z") [];
                                    Sample.record "b" "2"])).
Proof.
  apply (C4_children_grouped_by_tag "zone"
           [Sample.record "a" "1"; Element "name" (Some "z") [];
            Sample.record "b" "2"]).
  discriminate.
Defined.

(** C5, as stated, fails: the empty child [<b/>] of [<a><b/></a>] is a
    present entry of the dict, holding [None]. *)
Lemma C5_empty_child_is_present_with_None :
  let child := Element "b" None [] in
  let parent := Element "a" None [child] in
  XML.unmarshal child = PNone
  /\ XML.unmarshal parent = PDict [("b", PNone)]
  /\ Py.contains "b" (XML.unmarshal parent) = ok true
  /\ Py.getitem (XML.unmarshal parent) "b" = ok PNone.
Proof. repeat split; reflexivity. Qed.

(** C5, amended: for an element as the parser builds it (a text, where
    present, is not empty), what [unmarshal] returns is [None], a non-empty
    string, or a dict of at least one entry, the entries holding such values
    or lists of at least one such value; an element without text and
    children gives [None]; and every child of an element without text,
    the empty ones too, has its tag present in the dict, its value being
    the value held there or an item of the list held there. *)
Theorem C5_unmarshal_shape e :
  texts_nonempty e = true ->
  unmarshalled (XML.unmarshal e) = true
  /\ (text e = None -> children e = [] -> XML.unmarshal e = PNone)
  /\ (text e = None ->
      forall c, In c (children e) ->
        exists d, XML.unmarshal e = PDict d
                  /\ Dict.mem d (tag c) = true
                  /\ In (XML.unmarshal c)
                        (map XML.unmarshal (tagged (tag c) (children e)))
                  /\ Dict.get d (tag c)
                     = grouped (map XML.unmarshal
                                  (tagged (tag c) (children e)))).
Proof.
  intros Hwf. split; [now apply unmarshal_unmarshalled|].
  destruct e as [tg txt cs]. simpl text. simpl children.
  split.
  - now intros -> ->.
  - intros -> c Hc. exists (fold_left XML.turn cs []).
    rewrite unmarshal_eq.
    split; [destruct cs; [contradiction | reflexivity]|].
    unfold Dict.mem. rewrite fold_turn_get.
    assert (In c (tagged (tag c) cs)) as Hin.
    { apply filter_In. split; [exact Hc | apply String.eqb_refl]. }
    split; [|split; [now apply in_map | reflexivity]].
    destruct (tagged (tag c) cs) as [|c0 [|c1 l]]; [contradiction| |];
      reflexivity.
Qed.

Lemma C5_unmarshal_shape_witness :
  let e := Element "status" None
             [Element "type" (Some "error") []; Element "text" None []] in
  unmarshalled (XML.unmarshal e) = true
  /\ (text e = None -> children e = [] -> XML.unmarshal e = PNone)
  /\ (text e = None ->
      forall c, In c (children e) ->
        exists d, XML.unmarshal e = PDict d
                  /\ Dict.mem d (tag c) = true
                  /\ In (XML.unmarshal c)
                        (map XML.unmarshal (tagged (tag c) (children e)))
                  /\ Dict.get d (tag c)
                     = grouped (map XML.unmarshal
                                  (tagged (tag c) (children e)))).
Proof.
  apply (C5_unmarshal_shape
           (Element "status" None
              [Element "type" (Some "error") []; Element "text" None []])).
  reflexivity.
Defined.

(** ** [marshal] *)

Example marshal_task :
  XML.marshal "task"
    [("code", PStr "0205"); ("skip", PNone);
     ("zone", PDict [("name", PStr "example.com"); ("ttl", PInt 60)]);
     ("ns", PList [PStr "a"; PStr "b"])]
  = ok (Element "task" None
          [Element "code" (Some "0205") [];
           Element "zone" None [Element "name" (Some "example.com") [];
                                Element "ttl" (Some "60") []];
           Element "ns" (Some "a") []; Element "ns" (Some "b") []]).
Proof. reflexivity. Qed.

(** C9, as stated, fails: an object that is no scalar, list or dict but has
    a [__dict__] is not refused, it is marshalled as that dict. *)
Lemma C9_object_with_dict_is_marshalled :
  XML._marshal_value (PObj [("name", PStr "example.com")])
    (Element "task" None []) "zone"
  = ok (Element "task" None
          [Element "zone" None [Element "name" (Some "example.com") []]]).
Proof. reflexivity. Qed.

(** C9, amended: [_marshal_value] adds to the element what the
    Value-to-element rule [Spec.encode] emits for the entry: a child with the
    string form as text for a scalar (for an [int] that [str] converts; one
    of more than 4300 digits raises [ValueError]), nothing for [None], the
    elements of
    every item in turn for a list, one child holding the marshalled entries
    for a dict and likewise for an object that has a [__dict__]; for any
    other value it raises [NotImplementedError] with the name and the
    value in the message.  A failure inside a list or a dict is the
    failure of the whole. *)
Theorem C9_marshal_value_follows_rule :
  (forall v e tg,
      XML._marshal_value v e tg
      = rbind (Spec.encode tg v) (fun es => ok (extend e es)))
  /\ (forall tg d, XML.marshal tg d = Spec.document tg d)
  /\ (forall z e tg,
        XML._marshal_value (PInt z) e tg
        = if PyStr.fits z
          then ok (extend e [Element tg (Some (PyStr.of_Z z)) []])
          else raise ValueError)
  /\ (forall d e tg,
        XML._marshal_value (PDict d) e tg
        = rbind (XML.marshal tg d) (fun m => ok (append e m)))
  /\ (forall d e tg,
        XML._marshal_value (PObj d) e tg
        = rbind (XML.marshal tg d) (fun m => ok (append e m)))
  /\ (forall s e tg,
        XML._marshal_value (POther s) e tg
        = raise (NotImplementedError
                   ("Unable to serialize " ++ tg ++ "=" ++ s))).
Proof.
  split; [intros; apply marshal_value_encode|].
  split; [intros; apply marshal_document|].
  split.
  { intros z e tg. rewrite marshal_value_encode. cbn [Spec.encode].
    unfold str_int. now destruct (PyStr.fits z). }
  repeat split; reflexivity.
Qed.

(** C10: an entry holding the empty list adds no element; the document is
    the one of the same map with [None] in its place, and the one of the map
    without the entry; read back, it has no field of that name. *)
Theorem C10_empty_list_leaves_no_trace tg d1 d2 k :
  ~ In k (Dict.keys (d1 ++ d2)) ->
  (forall e, XML._marshal_value (PList []) e k = ok e)
  /\ XML.marshal tg (d1 ++ (k, PList []) :: d2)
     = XML.marshal tg (d1 ++ (k, PNone) :: d2)
  /\ XML.marshal tg (d1 ++ (k, PList []) :: d2) = XML.marshal tg (d1 ++ d2)
  /\ forall e,
       XML.marshal tg (d1 ++ (k, PList []) :: d2) = ok e ->
       tagged k (children e) = []
       /\ match XML.unmarshal e with
          | PDict d => Dict.get d k = None
          | v => v = PNone
          end.
Proof.
  intros Hk.
  assert (Hskip : forall x, Spec.entry_elements (k, x) = ok [] ->
            XML.marshal tg (d1 ++ (k, x) :: d2) = XML.marshal tg (d1 ++ d2)).
  { intros x Hx. rewrite !marshal_document. unfold Spec.document.
    now rewrite concat_map_skip. }
  split; [reflexivity|]. split; [|split].
  - now rewrite !Hskip.
  - now apply Hskip.
  - intros e. rewrite Hskip by reflexivity.
    rewrite marshal_document. unfold Spec.document.
    destruct (Spec.concat_map Spec.entry_elements (d1 ++ d2)) as [x|cs] eqn:E;
      simpl; [discriminate|].
    intros [= <-]. simpl children.
    assert (Hnone : tagged k cs = []).
    { apply tagged_none. apply document_tags in E.
      eapply Forall_impl; [|exact E]. simpl.
      intros c Hc Heq. apply Hk. now rewrite <- Heq. }
    split; [exact Hnone|].
    rewrite unmarshal_eq. destruct cs as [|c cs]; [reflexivity|].
    now rewrite fold_turn_get, Hnone.
Qed.

Lemma C10_empty_list_leaves_no_trace_witness :
  let d1 := [("code", PStr "0205")] in
  let d2 := [("zone", PDict [("name", PStr "example.com")])] in
  (forall e, XML._marshal_value (PList []) e "rr" = ok e)
  /\ XML.marshal "task" (d1 ++ ("rr", PList []) :: d2)
     = XML.marshal "task" (d1 ++ ("rr", PNone) :: d2)
  /\ XML.marshal "task" (d1 ++ ("rr", PList []) :: d2)
     = XML.marshal "task" (d1 ++ d2)
  /\ forall e,
       XML.marshal "task" (d1 ++ ("rr", PList []) :: d2) = ok e ->
       tagged "rr" (children e) = []
       /\ match XML.unmarshal e with
          | PDict d => Dict.get d "rr" = None
          | v => v = PNone
          end.
Proof.
  apply (C10_empty_list_leaves_no_trace "task"
           [("code", PStr "0205")]
           [("zone", PDict [("name", PStr "example.com")])] "rr").
  simpl. intros [H|[H|[]]]; discriminate.
Defined.

(** ** Round trip *)

(** C7, as stated, fails: a field holding the empty list is not null, and
    it is not among the fields read back. *)
Lemma C7_empty_list_field_is_lost :
  exists e,
    XML.marshal "x" [("a", PList []); ("b", PStr "1")] = ok e
    /\ XML.unmarshal e = PDict [("b", PStr "1")]
    /\ Py.contains "a" (XML.unmarshal e) = ok false.
Proof. eexists. repeat split; reflexivity. Qed.

(** C7, amended: for a map with distinct keys whose fields are null or
    storable (scalars, an integer being one that [str] converts, of at most
    4300 digits; non-empty lists of scalars and maps; maps with distinct
    keys and a field that is not null, of storable or null fields again),
    [marshal] succeeds and every field that is not null is read back by
    [unmarshal] as [read_back] of its value: a scalar in its string form, a
    list of one item as the bare item, a longer list as the list of its
    items, a map as the map of its fields that are not null.  So a string
    [v] under the key ["a"] is read back as it is, and an integer that [str]
    converts as its string form; for an integer beyond the limit [marshal]
    raises [ValueError]. *)
Theorem C7_round_trip tg m :
  storable_entries m = true ->
  (exists e,
      XML.marshal tg m = ok e
      /\ forall k v,
           In (k, v) m -> v <> PNone ->
           exists d, XML.unmarshal e = PDict d
                     /\ Dict.get d k = Some (read_back v))
  /\ (forall s,
        rbind (XML.marshal "x" [("a", PStr s)]) (fun e => ok (XML.unmarshal e))
        = ok (PDict [("a", PStr s)]))
  /\ (forall z,
        if PyStr.fits z
        then rbind (XML.marshal "x" [("a", PInt z)])
                   (fun e => ok (XML.unmarshal e))
             = ok (PDict [("a", PStr (PyStr.of_Z z))])
        else XML.marshal "x" [("a", PInt z)] = raise ValueError).
Proof.
  intros Hm. split; [|split; [reflexivity|]].
  2: { intros z. destruct (PyStr.fits z) eqn:Hz;
       unfold XML.marshal; cbn [for_each XML._marshal_value fst snd];
       unfold str_int; rewrite Hz; reflexivity. }
  unfold storable_entries in Hm. apply andb_prop in Hm as [Hdis Hall].
  destruct (entries_read_back m) with (acc := @nil (string * pyval))
    as (cs & Hcs & Hfold); try assumption; try reflexivity.
  { rewrite Forall_forall. intros kv _. apply storable_reads_back. }
  simpl in Hfold.
  exists (Element tg None cs). rewrite marshal_document. unfold Spec.document.
  rewrite Hcs. split; [reflexivity|].
  intros k v Hin Hv. exists (read_back_entries m).
  split; [|now apply read_back_entries_get].
  rewrite unmarshal_eq, Hfold.
  destruct cs as [|c cs]; [|reflexivity].
  simpl in Hfold.
  pose proof (read_back_entries_get m k v Hdis Hin Hv) as Hget.
  rewrite <- Hfold in Hget. discriminate.
Qed.

Lemma C7_round_trip_witness :
  let m := [("code", PStr "0202001"); ("note", PNone);
            ("ns", PList [PStr "a.ns.de"]);
            ("rr_add", PDict [("name", PStr "_acme-challenge");
                              ("ttl", PInt 60); ("skip", PNone)]);
            ("rr", PList [PDict [("name", PStr "a")]; PStr "b"])] in
  (exists e,
      XML.marshal "task" m = ok e
      /\ forall k v,
           In (k, v) m -> v <> PNone ->
           exists d, XML.unmarshal e = PDict d
                     /\ Dict.get d k = Some (read_back v))
  /\ (forall s,
        rbind (XML.marshal "x" [("a", PStr s)]) (fun e => ok (XML.unmarshal e))
        = ok (PDict [("a", PStr s)]))
  /\ (forall z,
        if PyStr.fits z
        then rbind (XML.marshal "x" [("a", PInt z)])
                   (fun e => ok (XML.unmarshal e))
             = ok (PDict [("a", PStr (PyStr.of_Z z))])
        else XML.marshal "x" [("a", PInt z)] = raise ValueError).
Proof.
  apply (C7_round_trip "task"
           [("code", PStr "0202001"); ("note", PNone);
            ("ns", PList [PStr "a.ns.de"]);
            ("rr_add", PDict [("name", PStr "_acme-challenge");
                              ("ttl", PInt 60); ("skip", PNone)]);
            ("rr", PList [PDict [("name", PStr "a")]; PStr "b"])]).
  reflexivity.
Defined.

(** ** The gateway client *)

Example call_without_body :
  _call Sample.repr Sample.repr_error
    (fun _ _ => Reply (Element "response" None []))
    Sample.self Sample.zone_task (World [] [])
  = (World [Element "request" None
              [Element "auth" None
                 [Element "user" (Some "54321") [];
                  Element "password" (Some "PASSWORD") [];
                  Element "context" (Some "10") []];
               Element "language" (Some "en") [];
               Element "task" None
                 [Element "code" (Some "0205") [];
                  Element "zone" None
                    [Element "name" (Some "example.com") []]]]]
           ["Error calling https://gateway.schlundtech.de";
            "Request was:  <value>"],
     raise (PluginError
              "Unexpected response received from https://gateway.schlundtech.de")).
Proof. reflexivity. Qed.

Example call_with_empty_result :
  let run := _call Sample.repr Sample.repr_error
               (fun _ _ => Reply (Element "response" None
                                    [Element "result" None []]))
               Sample.self Sample.zone_task (World [] []) in
  snd run
  = raise (PluginError
             ("Unexpected response received from https://gateway.schlundtech.de"
              ++ nl ++ "<value>"))
  /\ log (fst run)
     = ["Error calling https://gateway.schlundtech.de";
        "Request was:  <value>"; "Response was: <value>"].
Proof. split; reflexivity. Qed.

Example call_with_result :
  snd (_call Sample.repr Sample.repr_error
         (fun _ _ => Reply (Sample.update_reply "success" []))
         Sample.self Sample.zone_task (World [] []))
  = ok (PDict [("status", PDict [("type", PStr "success")])]).
Proof. reflexivity. Qed.

(** C6: the gateway answers with a document that has children but no
    [result] among them; the claim has the call fail with the plugin's
    "unexpected response" error after logging, where [response['result']]
    raises [KeyError] and nothing is logged. *)
Theorem C6_missing_result_raises_KeyError :
  let run := _call Sample.repr Sample.repr_error
               (fun _ _ => Reply Sample.error_page)
               Sample.self Sample.zone_task (World [] []) in
  XML.fromstring Sample.error_page
  = PDict [("body", PStr "Service unavailable")]
  /\ snd run = raise (KeyError "result")
  /\ log (fst run) = [].
Proof. repeat split; reflexivity. Qed.

Example add_to_empty_zone :
  let run := add_txt_record Sample.repr Sample.repr_error
               (Sample.gw (Sample.zone_reply [])
                          (Sample.update_reply "success" []))
               Sample.self "example.com" "_acme-challenge.example.com" "TOKEN"
               (World [] []) in
  snd run = ok tt
  /\ map task_code (sent (fst run)) = [Some "0205"; Some "0202001"].
Proof. split; reflexivity. Qed.

(** C1: the zone holds a record of the relative name and the value asked
    for; the claim has the operation succeed after the zone lookup alone,
    where [add_txt_record] posts a second request, the zone update of code
    0202001 ([_current_value] gives [None] for a record of the same value, so
    the test [current_value == validation] cannot hold). *)
Theorem C1_identical_record_is_added_again :
  let gw := Sample.gw (Sample.zone_reply [Sample.record "_acme-challenge" "TOKEN"])
                      (Sample.update_reply "success" []) in
  let run := add_txt_record Sample.repr Sample.repr_error gw Sample.self
               "example.com" "_acme-challenge.example.com" "TOKEN"
               (World [] []) in
  (exists w1 info,
      _zone_info Sample.repr Sample.repr_error gw Sample.self "example.com"
        (World [] []) = (w1, ok info)
      /\ existsb (matches (_strip_domain "example.com"
                                         "_acme-challenge.example.com") "TOKEN")
                 (zone_records info) = true)
  /\ snd run = ok tt
  /\ map task_code (sent (fst run)) = [Some "0205"; Some "0202001"].
Proof.
  split; [|split; reflexivity].
  eexists. eexists. split; [vm_compute; reflexivity | reflexivity].
Qed.

(** When the zone that the lookup returns holds resource records (maps
    with a name and a string value, a bare record counting as a list of
    one) and one of them has the relative name [_strip_domain domain name]
    and another value than [validation], [add_txt_record] raises the
    plugin's "already exists with different value" error, and the zone
    lookup, of code 0205, is the only request posted. *)
Lemma conflict_among_records
  repr repr_error gw self domain name validation w w1 info :
  _zone_info repr repr_error gw self domain w = (w1, ok info) ->
  forallb is_record (zone_records info) = true ->
  existsb (conflicts (_strip_domain domain name) validation)
          (zone_records info) = true ->
  exists w2,
    add_txt_record repr repr_error gw self domain name validation w
    = (w2, raise (PluginError
                    ("TXT record " ++ name ++ " for " ++ domain
                     ++ " already exists with different value")))
    /\ exists lookup,
         sent w2 = sent w ++ [lookup]
         /\ task_code lookup = Some "0205".
Proof.
  intros Hzone Hrec Hex.
  destruct (current_value_conflict info domain name validation Hrec Hex)
    as (info' & v & Hcur & Hv).
  destruct (zone_info_sent _ _ _ _ _ _ _ _ Hzone) as (lookup & Hsent & Hcode).
  unfold add_txt_record.
  cbv beta iota zeta delta [bind lift]. rewrite Hzone.
  cbv beta iota delta [ok]. rewrite Hcur. cbv beta iota delta [ok].
  cbn [Py.is_none Py.eq_str negb andb]. rewrite Hv. cbn [negb].
  cbv beta iota delta [debug throw].
  eexists. split; [reflexivity|].
  exists lookup. simpl sent. now split.
Qed.

Lemma conflict_among_records_example :
  exists w2,
    add_txt_record Sample.repr Sample.repr_error
      (Sample.gw (Sample.zone_reply [Sample.record "www" "1.2.3.4";
                                     Sample.record "_acme-challenge" "OLD"])
                 (Sample.update_reply "success" []))
      Sample.self "example.com" "_acme-challenge.example.com" "TOKEN"
      (World [] [])
    = (w2, raise (PluginError
                    ("TXT record " ++ "_acme-challenge.example.com" ++ " for "
                     ++ "example.com"
                     ++ " already exists with different value")))
    /\ exists lookup,
         sent w2 = sent (World [] []) ++ [lookup]
         /\ task_code lookup = Some "0205".
Proof.
  eapply (conflict_among_records Sample.repr Sample.repr_error
            (Sample.gw (Sample.zone_reply [Sample.record "www" "1.2.3.4";
                                           Sample.record "_acme-challenge" "OLD"])
                       (Sample.update_reply "success" []))
            Sample.self "example.com" "_acme-challenge.example.com" "TOKEN"
            (World [] [])).
  - vm_compute. reflexivity.
  - reflexivity.
  - reflexivity.
Defined.

(** C3: the zone holds a record of the relative name with the value
    ["OLD"], behind a record of the same name whose [value] element is
    empty; the claim has [add_txt_record] fail with the conflict error and
    post no update, where [_current_value] returns the [None] of the first
    record, which [add_txt_record] takes for "no record", and the zone
    update of code 0202001 is posted. *)
Theorem C3_empty_value_hides_conflict :
  let gw := Sample.gw
              (Sample.zone_reply
                 [Element "rr" None
                    [Element "name" (Some "_acme-challenge") [];
                     Element "type" (Some "TXT") [];
                     Element "value" None []];
                  Sample.record "_acme-challenge" "OLD"])
              (Sample.update_reply "success" []) in
  let run := add_txt_record Sample.repr Sample.repr_error gw Sample.self
               "example.com" "_acme-challenge.example.com" "TOKEN"
               (World [] []) in
  (exists w1 info,
      _zone_info Sample.repr Sample.repr_error gw Sample.self "example.com"
        (World [] []) = (w1, ok info)
      /\ existsb (conflicts (_strip_domain "example.com"
                                           "_acme-challenge.example.com") "TOKEN")
                 (zone_records info) = true)
  /\ snd run = ok tt
  /\ map task_code (sent (fst run)) = [Some "0205"; Some "0202001"].
Proof.
  split; [|split; reflexivity].
  eexists. eexists. split; [vm_compute; reflexivity | reflexivity].
Qed.

Example add_with_nameless_record :
  snd (add_txt_record Sample.repr Sample.repr_error
         (Sample.gw
            (Sample.zone_reply
               [Element "rr" None [Element "type" (Some "SOA") [];
                                   Element "value" (Some "x") []];
                Sample.record "_acme-challenge" "OLD"])
            (Sample.update_reply "success" []))
         Sample.self "example.com" "_acme-challenge.example.com" "TOKEN"
         (World [] []))
  = raise (KeyError "name").
Proof. reflexivity. Qed.

Example add_quota_exceeded :
  snd (add_txt_record Sample.repr Sample.repr_error
         (Sample.gw (Sample.zone_reply [])
                    (Sample.update_reply "error"
                       [Element "text" (Some "Quota exceeded") []]))
         Sample.self "example.com" "_acme-challenge.example.com" "TOKEN"
         (World [] []))
  = raise (PluginError
             ("Unable to add TXT record for example.com: "
              ++ "_acme-challenge.example.com" ++ nl ++ "Quota exceeded")).
Proof. reflexivity. Qed.

Lemma status_text_string res st t :
  Py.getitem res "status" = ok (PDict st) ->
  Dict.get st "text" = Some (PStr t) ->
  status_text res = ok (nl ++ t)%string.
Proof.
  intros Hst Ht. unfold status_text.
  assert (Py.is_none res = false) as -> by (destruct res; try reflexivity; discriminate).
  cbn [negb]. rewrite Hst. cbn [rbind ok Py.contains]. unfold Dict.mem.
  rewrite Ht. cbn [Py.getitem]. now rewrite Ht.
Qed.

Lemma status_text_missing res st :
  Py.getitem res "status" = ok (PDict st) ->
  Dict.get st "text" = None ->
  status_text res = ok "".
Proof.
  intros Hst Ht. unfold status_text.
  assert (Py.is_none res = false) as -> by (destruct res; try reflexivity; discriminate).
  cbn [negb]. rewrite Hst. cbn [rbind ok Py.contains]. unfold Dict.mem.
  now rewrite Ht.
Qed.

(** C8: the zone update is answered with
    [<status><type>error</type><text/></status>]; the claim has the
    operation fail with the plugin's update error, where the empty [text]
    element is a present entry holding [None], ['\n' + None] raises
    [TypeError], and the plugin's error is never built; in [add_txt_record]
    and in [del_txt_record] alike. *)
Theorem C8_empty_status_text_raises_TypeError :
  let gw := Sample.gw (Sample.zone_reply [])
                      (Sample.update_reply "error" [Element "text" None []]) in
  let added := add_txt_record Sample.repr Sample.repr_error gw Sample.self
                 "example.com" "_acme-challenge.example.com" "TOKEN"
                 (World [] []) in
  let removed := del_txt_record Sample.repr Sample.repr_error gw Sample.self
                   "example.com" "_acme-challenge.example.com" "TOKEN"
                   (World [] []) in
  XML.fromstring (Sample.update_reply "error" [Element "text" None []])
  = PDict [("result",
            PDict [("status", PDict [("type", PStr "error"); ("text", PNone)])])]
  /\ map task_code (sent (fst added)) = [Some "0205"; Some "0202001"]
  /\ snd added = raise TypeError
  /\ map task_code (sent (fst removed)) = [Some "0205"; Some "0202001"]
  /\ snd removed = raise TypeError.
Proof. repeat split; reflexivity. Qed.

(** * Further properties *)

(** ** The codec *)

Section CodecFacts.

Import XML.

(** The outcome of encoding a list of things, from the outcome for each:
    where every thing passes [p], no refusal; where one does not, no
    elements. *)
Lemma concat_map_outcome {A} (p : A -> bool)
  (f : A -> result (list element)) (l : list A) :
  Forall (fun a => if p a
                   then forall msg, f a <> raise (NotImplementedError msg)
                   else forall es, f a <> ok es) l ->
  if forallb p l
  then forall msg, Spec.concat_map f l <> raise (NotImplementedError msg)
  else forall es, Spec.concat_map f l <> ok es.
Proof.
  induction 1 as [|a l Ha _ IH]; simpl; [discriminate|].
  destruct (p a); simpl.
  - destruct (f a) as [x|es] eqn:Ea.
    + destruct (forallb p l); [exact Ha | discriminate].
    + destruct (Spec.concat_map f l) as [x|es'] eqn:El.
      * destruct (forallb p l); [exact IH | discriminate].
      * destruct (forallb p l); [discriminate|]. now elim (IH es').
  - destruct (f a) as [x|es] eqn:Ea; [discriminate|]. now elim (Ha es).
Qed.

Lemma encode_outcome v : forall k,
  if serializable v
  then forall msg, Spec.encode k v <> raise (NotImplementedError msg)
  else forall es, Spec.encode k v <> ok es.
Proof.
  induction v as [ | s | z | f | items IH | d IH | d IH | s]
    using pyval_forall_ind; intros k; simpl; try discriminate.
  - unfold str_int. destruct (PyStr.fits z); discriminate.
  - apply concat_map_outcome.
    rewrite Forall_forall in *. intros i Hi. now apply IH.
  - pose proof (concat_map_outcome (fun kv => serializable (snd kv))
                  (fun entry => Spec.encode (fst entry) (snd entry)) d) as H.
    destruct (forallb _ d);
      (destruct (Spec.concat_map _ d) as [x|cs] eqn:E;
       [|try discriminate]);
      try (intros msg [= ->]; eapply H; [|reflexivity]);
      try (exfalso; eapply H; [|reflexivity]);
      try discriminate;
      rewrite Forall_forall in *; intros kv Hkv; now apply IH.
  - pose proof (concat_map_outcome (fun kv => serializable (snd kv))
                  (fun entry => Spec.encode (fst entry) (snd entry)) d) as H.
    destruct (forallb _ d);
      (destruct (Spec.concat_map _ d) as [x|cs] eqn:E;
       [|try discriminate]);
      try (intros msg [= ->]; eapply H; [|reflexivity]);
      try (exfalso; eapply H; [|reflexivity]);
      try discriminate;
      rewrite Forall_forall in *; intros kv Hkv; now apply IH.
Qed.

(** X1: [marshal] never returns a document for a map that holds, at any
    depth, a value of a kind [_marshal_value] has no case for, and it never
    raises [NotImplementedError] for a map that holds none. *)
Theorem X1_marshal_and_unsupported_values tg d :
  if forallb (fun kv => serializable (snd kv)) d
  then forall msg, marshal tg d <> raise (NotImplementedError msg)
  else forall e, marshal tg d <> ok e.
Proof.
  rewrite marshal_document. unfold Spec.document.
  pose proof (concat_map_outcome (fun kv => serializable (snd kv))
                Spec.entry_elements d) as H.
  assert (HF : Forall (fun a => if serializable (snd a)
                   then forall msg, Spec.entry_elements a
                                    <> raise (NotImplementedError msg)
                   else forall es, Spec.entry_elements a <> ok es) d).
  { rewrite Forall_forall. intros kv _. apply encode_outcome. }
  specialize (H HF).
  destruct (forallb _ d);
    destruct (Spec.concat_map Spec.entry_elements d) as [x|cs]; simpl.
  - intros msg [= ->]. now apply (H msg).
  - discriminate.
  - discriminate.
  - now elim (H cs).
Qed.

Lemma encode_leaf_or_branch v : forall k es,
  Spec.encode k v = ok es -> Forall (fun c => leaf_or_branch c = true) es.
Proof.
  induction v as [ | s | z | f | items IH | d IH | d IH | s]
    using pyval_forall_ind; intros k es; simpl;
    try (intros [= <-]; repeat constructor); try discriminate.
  - destruct (str_int z); [discriminate|].
    intros [= <-]. repeat constructor.
  - apply concat_map_forall.
    rewrite Forall_forall in *. intros i Hi es'. now apply IH.
  - destruct (Spec.concat_map _ d) as [x|cs] eqn:E; [discriminate|].
    intros [= <-]. constructor; [|constructor]. simpl.
    apply forallb_forall. apply Forall_forall.
    revert E. apply concat_map_forall.
    rewrite Forall_forall in *. intros kv Hkv es'. now apply IH.
  - destruct (Spec.concat_map _ d) as [x|cs] eqn:E; [discriminate|].
    intros [= <-]. constructor; [|constructor]. simpl.
    apply forallb_forall. apply Forall_forall.
    revert E. apply concat_map_forall.
    rewrite Forall_forall in *. intros kv Hkv es'. now apply IH.
Qed.

(** X2: the document that [marshal] returns has the root tag asked for and
    no text at the root; every child of the root carries a key of the map
    as its tag; and at every depth an element with a text has no child, so
    [unmarshal] passes over no element of it for a text. *)
Theorem X2_marshal_document_shape tg d e :
  marshal tg d = ok e ->
  tag e = tg
  /\ text e = None
  /\ Forall (fun c => In (tag c) (Dict.keys d)) (children e)
  /\ leaf_or_branch e = true.
Proof.
  rewrite marshal_document. unfold Spec.document.
  destruct (Spec.concat_map Spec.entry_elements d) as [x|cs] eqn:E; simpl;
    [discriminate|].
  intros [= <-]. simpl. repeat split.
  - now apply document_tags.
  - apply forallb_forall. apply Forall_forall.
    revert E. apply concat_map_forall.
    rewrite Forall_forall. intros kv _ es. apply encode_leaf_or_branch.
Qed.

Lemma X2_marshal_document_shape_witness :
  let d := [("code", PStr "0205");
            ("zone", PDict [("name", PStr "example.com")]);
            ("ns", PList [PStr "a"; PStr "b"])] in
  let e := Element "task" None
             [Element "code" (Some "0205") [];
              Element "zone" None [Element "name" (Some "example.com") []];
              Element "ns" (Some "a") []; Element "ns" (Some "b") []] in
  tag e = "task"
  /\ text e = None
  /\ Forall (fun c => In (tag c) (Dict.keys d)) (children e)
  /\ leaf_or_branch e = true.
Proof.
  apply (X2_marshal_document_shape "task"
           [("code", PStr "0205");
            ("zone", PDict [("name", PStr "example.com")]);
            ("ns", PList [PStr "a"; PStr "b"])]).
  reflexivity.
Defined.

(** An invariant of the dict that every turn of the loop keeps holds of
    what the loop builds. *)
Lemma fold_turn_invariant (I : Dict.t -> Prop) cs :
  (forall acc c, In c cs -> I acc -> I (turn acc c)) ->
  forall acc, I acc -> I (fold_left turn cs acc).
Proof.
  induction cs as [|c cs IH]; intros Hstep acc Hacc; simpl; [exact Hacc|].
  apply IH.
  - intros acc' c' Hc'. apply Hstep. now right.
  - apply Hstep; [now left | exact Hacc].
Qed.

Lemma keys_set d k v :
  Dict.keys (Dict.set d k v)
  = if existsb (String.eqb k) (Dict.keys d) then Dict.keys d
    else Dict.keys d ++ [k].
Proof.
  unfold Dict.keys. induction d as [|[k' v'] d IH]; [reflexivity|].
  cbn [Dict.set map fst existsb]. rewrite (String.eqb_sym k k').
  destruct (String.eqb k' k); cbn [map fst orb app]; [reflexivity|].
  rewrite IH. now destruct (existsb (String.eqb k) (map fst d)).
Qed.

Lemma keys_fold_turn cs : forall acc,
  Dict.keys (fold_left turn cs acc)
  = fold_left (fun acc t => if existsb (String.eqb t) acc then acc
                            else acc ++ [t])
      (map tag cs) (Dict.keys acc).
Proof.
  induction cs as [|c cs IH]; intros acc; simpl; [reflexivity|].
  rewrite IH. f_equal. unfold turn.
  destruct (step_is_set acc (tag c) (unmarshal c)) as [x ->].
  apply keys_set.
Qed.

Lemma first_seen_nodup tags : forall acc,
  NoDup acc ->
  NoDup (fold_left (fun acc t => if existsb (String.eqb t) acc then acc
                                 else acc ++ [t]) tags acc).
Proof.
  induction tags as [|t tags IH]; intros acc Hacc; simpl; [exact Hacc|].
  apply IH. destruct (existsb (String.eqb t) acc) eqn:E; [exact Hacc|].
  apply NoDup_app; [exact Hacc | repeat constructor; intros [] |].
  intros a Ha [Heq|[]]. subst a.
  assert (existsb (String.eqb t) acc = true) as E'; [|congruence].
  apply existsb_exists. exists t. split; [exact Ha | apply String.eqb_refl].
Qed.

(** X3: the dict that [unmarshal] builds from the children of an element
    has the tags of the children as its keys, each once, in the order in
    which they first occur in the document. *)
Theorem X3_unmarshal_keys_in_document_order tg cs :
  cs <> [] ->
  exists d,
    unmarshal (Element tg None cs) = PDict d
    /\ Dict.keys d = first_seen (map tag cs)
    /\ NoDup (Dict.keys d).
Proof.
  intros Hcs. exists (fold_left turn cs []).
  rewrite unmarshal_eq. split; [destruct cs; [contradiction | reflexivity]|].
  rewrite keys_fold_turn. split; [reflexivity|].
  apply first_seen_nodup. constructor.
Qed.

Lemma X3_unmarshal_keys_in_document_order_witness :
  exists d,
    unmarshal (Element "zone" None
                 [Sample.record "a" "1"; Element "name" (Some "z") [];
                  Sample.record "b" "2"]) = PDict d
    /\ Dict.keys d
       = first_seen (map tag [Sample.record "a" "1";
                              Element "name" (Some "z") [];
                              Sample.record "b" "2"])
    /\ NoDup (Dict.keys d).
Proof.
  apply (X3_unmarshal_keys_in_document_order "zone"
           [Sample.record "a" "1"; Element "name" (Some "z") [];
            Sample.record "b" "2"]).
  discriminate.
Defined.

Lemma step_wire_shape res name v :
  forallb (fun kv => field_shape wire_shape (snd kv)) res = true ->
  wire_shape v = true -> Py.is_list v = false ->
  forallb (fun kv => field_shape wire_shape (snd kv))
          (unmarshal_step res name v) = true.
Proof.
  intros Hres Hv Hl.
  assert (Hitem : negb (Py.is_list v) && wire_shape v = true)
    by now rewrite Hl, Hv.
  unfold unmarshal_step.
  destruct (Dict.get res name) as [old|] eqn:G.
  - pose proof (get_forallb (field_shape wire_shape) _ _ _ Hres G) as Hold.
    assert (Hpair : Py.is_list old = false ->
              field_shape wire_shape (PList [old; v]) = true).
    { intros Ho. cbn [field_shape forallb List.length Nat.leb andb].
      rewrite Ho, Hitem. cbn [negb andb].
      destruct old; try discriminate Ho; cbn [field_shape] in Hold;
        now rewrite Hold. }
    destruct old;
      try (apply (set_forallb (field_shape wire_shape));
           [assumption | now apply Hpair]).
    apply (set_forallb (field_shape wire_shape)); [assumption|].
    cbn [field_shape] in Hold |- *. apply andb_prop in Hold as [H1 H2].
    rewrite forallb_app, H2. cbn [forallb]. rewrite Hitem.
    rewrite List.length_app. cbn [List.length andb].
    apply Nat.leb_le in H1. rewrite andb_true_r. apply Nat.leb_le. lia.
  - apply (set_forallb (field_shape wire_shape)); [assumption|].
    now destruct v.
Qed.

Lemma unmarshal_wire e : wire_shape (unmarshal e) = true.
Proof.
  induction e as [tg txt cs IH] using element_forall_ind.
  rewrite unmarshal_eq. destruct txt as [t|]; [reflexivity|].
  destruct cs as [|c cs]; [reflexivity|].
  cbn [wire_shape].
  apply (fold_turn_invariant
           (fun acc => forallb (fun kv => field_shape wire_shape (snd kv)) acc
                       = true)); [|reflexivity].
  intros acc c' Hc' Hacc. unfold turn. apply step_wire_shape.
  - exact Hacc.
  - rewrite Forall_forall in IH. now apply IH.
  - apply unmarshal_not_list.
Qed.

(** X4: what [unmarshal] returns is [None], a string or a dict, never a
    list; a field of the dict holds such a value again, or a list of two or
    more of them: a list never has fewer than two items and never holds a
    list. *)
Theorem X4_unmarshal_wire_shape e :
  wire_shape (unmarshal e) = true /\ Py.is_list (unmarshal e) = false.
Proof. split; [apply unmarshal_wire | apply unmarshal_not_list]. Qed.

Lemma wire_shape_serializable v :
  (wire_shape v = true -> serializable v = true)
  /\ (field_shape wire_shape v = true -> serializable v = true).
Proof.
  induction v as [ | s | z | f | items IH | d IH | d IH | s]
    using pyval_forall_ind; simpl; try (split; (reflexivity || discriminate)).
  - split; [discriminate|].
    intros H. apply andb_prop in H as [_ H].
    rewrite forallb_forall in *. rewrite Forall_forall in IH.
    intros i Hi. specialize (H i Hi). apply andb_prop in H as [_ H].
    now apply (proj1 (IH i Hi)).
  - assert (forallb (fun kv => field_shape wire_shape (snd kv)) d = true ->
            forallb (fun kv => serializable (snd kv)) d = true) as H.
    { rewrite !forallb_forall. rewrite Forall_forall in IH.
      intros H kv Hkv. now apply (proj2 (IH kv Hkv)), H. }
    now split.
Qed.

Lemma concat_map_ok {A} (f : A -> result (list element)) (l : list A) :
  Forall (fun a => exists es, f a = ok es) l ->
  exists es, Spec.concat_map f l = ok es.
Proof.
  induction 1 as [|a l [es Ha] _ [es' IH]]; simpl; [now exists []|].
  rewrite Ha, IH. now exists (es ++ es').
Qed.

(** Values of the shape that [unmarshal] builds are encoded without
    failure. *)
Lemma encode_wire v :
  (wire_shape v = true -> forall k, exists es, Spec.encode k v = ok es)
  /\ (field_shape wire_shape v = true ->
      forall k, exists es, Spec.encode k v = ok es).
Proof.
  induction v as [ | s | z | f | items IH | d IH | d IH | s]
    using pyval_forall_ind; simpl;
    try (split; (discriminate || (intros _ k; eexists; reflexivity))).
  - split; [discriminate|].
    intros H k. apply andb_prop in H as [_ H].
    apply concat_map_ok.
    rewrite forallb_forall in H. rewrite Forall_forall in *.
    intros i Hi. specialize (H i Hi). apply andb_prop in H as [_ H].
    now apply (proj1 (IH i Hi)).
  - assert (forallb (fun kv => field_shape wire_shape (snd kv)) d = true ->
            forall k, exists es,
              match Spec.concat_map
                      (fun entry => Spec.encode (fst entry) (snd entry)) d with
              | inl x => inl x
              | inr cs => ok [Element k None cs]
              end = ok es) as H.
    { intros H k.
      destruct (concat_map_ok
                  (fun entry => Spec.encode (fst entry) (snd entry)) d)
        as [cs ->]; [|eexists; reflexivity].
      rewrite forallb_forall in H. rewrite Forall_forall in *.
      intros kv Hkv. now apply (proj2 (IH kv Hkv)), H. }
    now split.
Qed.

(** X5: a value that [unmarshal] has returned is never refused by
    [_marshal_value]: what was read from a response (the [soa] and the
    [system_ns] of a zone) can be sent in a request. *)
Theorem X5_unmarshalled_values_marshal e e0 k :
  exists e', _marshal_value (unmarshal e) e0 k = ok e'.
Proof.
  rewrite marshal_value_encode.
  destruct (proj1 (encode_wire (unmarshal e)) (unmarshal_wire e) k)
    as [es ->].
  eexists. reflexivity.
Qed.

Lemma get_Forall (P : pyval -> Prop) d k x :
  Forall (fun kv => P (snd kv)) d -> Dict.get d k = Some x -> P x.
Proof.
  induction 1 as [|[k' v'] d Hv _ IH]; simpl; [discriminate|].
  destruct (String.eqb k' k); [|exact IH]. now intros [= <-].
Qed.

Lemma set_Forall (P : pyval -> Prop) d k v :
  Forall (fun kv => P (snd kv)) d -> P v ->
  Forall (fun kv => P (snd kv)) (Dict.set d k v).
Proof.
  intros H Hv. induction H as [|[k' v'] d Hv' Hd IH]; simpl.
  - now repeat constructor.
  - destruct (String.eqb k' k); constructor; assumption.
Qed.

Lemma nodup_distinct l : NoDup l -> distinct l = true.
Proof.
  induction 1 as [|k l Hk _ IH]; simpl; [reflexivity|].
  rewrite IH, andb_true_r. apply negb_true_iff.
  destruct (existsb (String.eqb k) l) eqn:E; [|reflexivity].
  apply existsb_exists in E as (x & Hx & Heq).
  apply String.eqb_eq in Heq. now subst x.
Qed.

Lemma item_stable_not_list v : item_stable v -> Py.is_list v = false.
Proof. intros (Hi & _ & _). now destruct v. Qed.

Lemma step_field_stable res name v :
  Forall (fun kv => field_stable (snd kv)) res ->
  item_stable v ->
  Forall (fun kv => field_stable (snd kv)) (unmarshal_step res name v).
Proof.
  intros Hres Hv. unfold unmarshal_step.
  destruct (Dict.get res name) as [old|] eqn:G.
  - pose proof (get_Forall field_stable _ _ _ Hres G) as Hold.
    destruct old as [ | s | z | f | l | d | d | s];
      try (apply (set_Forall field_stable); [assumption|];
           split; [simpl; lia |];
           constructor; [exact Hold|];
           constructor; [exact Hv | constructor]).
    apply (set_Forall field_stable); [assumption|].
    destruct Hold as [Hlen Hall]. split.
    + rewrite List.length_app. simpl. lia.
    + apply Forall_app. split; [exact Hall|].
      constructor; [exact Hv | constructor].
  - apply (set_Forall field_stable); [assumption|].
    pose proof (item_stable_not_list v Hv).
    destruct v; try discriminate; exact Hv.
Qed.

Lemma field_stable_facts x :
  field_stable x ->
  Py.is_none x = false /\ storable x = true /\ read_back x = x.
Proof.
  destruct x as [ | s | z | f | l | d | d | s]; simpl;
    try (intros (Hi & Hs & Hr); now repeat split).
  intros [Hlen Hall]. split; [reflexivity|]. split.
  - destruct l as [|a l]; [simpl in Hlen; lia|]. cbn [storable andb].
    apply forallb_forall. rewrite Forall_forall in Hall.
    intros i Hi. destruct (Hall i Hi) as (H1 & H2 & _). now rewrite H1, H2.
  - destruct l as [|a [|b l]]; try (simpl in Hlen; lia).
    f_equal. rewrite <- (map_id (a :: b :: l)) at 2.
    apply map_ext_in. rewrite Forall_forall in Hall.
    intros i Hi. now destruct (Hall i Hi) as (_ & _ & H).
Qed.

Lemma read_back_entries_stable d :
  Forall (fun kv => field_stable (snd kv)) d -> read_back_entries d = d.
Proof.
  unfold read_back_entries.
  induction 1 as [|[k x] d Hx _ IH]; simpl; [reflexivity|].
  apply field_stable_facts in Hx as (Hn & _ & Hr). simpl in Hn, Hr.
  rewrite Hn, Hr. simpl. now rewrite IH.
Qed.

Lemma dict_of_stable_fields d :
  d <> [] -> NoDup (Dict.keys d) ->
  Forall (fun kv => field_stable (snd kv)) d ->
  item_stable (PDict d).
Proof.
  intros Hne Hnd Hall. split; [reflexivity|]. split.
  - cbn [storable]. unfold Dict.keys in Hnd.
    rewrite (nodup_distinct _ Hnd). cbn [andb].
    assert (forallb (fun kv => Py.is_none (snd kv) || storable (snd kv)) d
            = true) as ->.
    { apply forallb_forall. rewrite Forall_forall in Hall.
      intros kv Hkv. destruct (field_stable_facts _ (Hall kv Hkv))
        as (_ & -> & _). apply orb_true_r. }
    rewrite andb_true_r.
    destruct d as [|kv d]; [contradiction|]. simpl.
    apply Forall_inv in Hall.
    now destruct (field_stable_facts _ Hall) as (-> & _ & _).
  - rewrite read_back_dict. now rewrite read_back_entries_stable.
Qed.

(** What [unmarshal] returns for an element without empty elements stands
    for one element and is given back by the round trip as it is. *)
Lemma unmarshal_item_stable e : full e = true -> item_stable (unmarshal e).
Proof.
  induction e as [tg txt cs IH] using element_forall_ind.
  simpl full. rewrite unmarshal_eq.
  destruct txt as [t|]; [intros _; now repeat split|].
  intros H. apply andb_prop in H as [Hne Hfull].
  destruct cs as [|c cs]; [discriminate|].
  apply dict_of_stable_fields.
  - apply fold_turn_not_nil. right. discriminate.
  - rewrite keys_fold_turn. apply first_seen_nodup. constructor.
  - apply (fold_turn_invariant
             (fun acc => Forall (fun kv => field_stable (snd kv)) acc));
      [|constructor].
    intros acc c' Hc' Hacc. unfold turn. apply step_field_stable; [exact Hacc|].
    rewrite Forall_forall in IH. apply IH; [exact Hc'|].
    rewrite forallb_forall in Hfull. now apply Hfull.
Qed.

(** X6: read, written and read again: for an element without text at the
    root and without empty elements (each element below has a text or a
    child), the dict that [unmarshal] returns is marshalled without
    failure, under any root tag, and the document unmarshals to the same
    dict. *)
Theorem X6_unmarshal_marshal_unmarshal tg e :
  full e = true -> text e = None ->
  exists d e',
    unmarshal e = PDict d
    /\ marshal tg d = ok e'
    /\ unmarshal e' = PDict d.
Proof.
  intros Hfull Htext.
  pose proof (unmarshal_item_stable e Hfull) as (_ & Hst & Hrb).
  destruct e as [t txt cs]. simpl in Htext. subst txt.
  rewrite unmarshal_eq in *.
  destruct cs as [|c cs]; [discriminate Hst|].
  set (d := fold_left turn (c :: cs) []) in *.
  exists d. simpl storable in Hst.
  apply andb_prop in Hst as [Hst Hall]. apply andb_prop in Hst as [Hdis Hex].
  destruct (entries_read_back d) with (acc := @nil (string * pyval))
    as (cs' & Hcs' & Hfold); try assumption; try reflexivity.
  { rewrite Forall_forall. intros kv _. apply storable_reads_back. }
  rewrite read_back_dict in Hrb. injection Hrb as Hrb.
  simpl app in Hfold. rewrite Hrb in Hfold.
  exists (Element tg None cs'). split; [reflexivity|].
  rewrite marshal_document. unfold Spec.document. rewrite Hcs'.
  split; [reflexivity|].
  rewrite unmarshal_eq, Hfold.
  destruct cs' as [|c' cs']; [|reflexivity].
  simpl in Hfold. subst d.
  exfalso. eapply fold_turn_not_nil; [|symmetry; exact Hfold].
  right. discriminate.
Qed.

Lemma X6_unmarshal_marshal_unmarshal_witness :
  exists d e',
    unmarshal (Sample.zone_reply [Sample.record "a" "1"; Sample.record "b" "2"])
    = PDict d
    /\ marshal "response" d = ok e'
    /\ unmarshal e' = PDict d.
Proof.
  apply (X6_unmarshal_marshal_unmarshal "response"
           (Sample.zone_reply [Sample.record "a" "1"; Sample.record "b" "2"]));
    reflexivity.
Defined.

End CodecFacts.

(** ** [_strip_domain] *)

Section StripDomainMore.

Local Open Scope string_scope.

Lemma replace_scan_absent old new s :
  PyStr.contains s old = false -> PyStr.replace_scan old new 0 s = s.
Proof.
  induction s as [|c s IH]; [reflexivity|].
  cbn [PyStr.contains PyStr.replace_scan]. intros H.
  apply orb_false_elim in H as [H1 H2].
  rewrite H1. f_equal. now apply IH.
Qed.

(** X7: a name in which ["." + domain] does not occur is returned as it
    is, also when it ends with the domain. *)
Theorem X7_strip_domain_without_occurrence domain fqdn :
  PyStr.contains fqdn ("." ++ domain) = false ->
  _strip_domain domain fqdn = fqdn.
Proof.
  intros H. unfold _strip_domain.
  destruct (PyStr.endswith fqdn domain); [|reflexivity].
  unfold PyStr.replace. change ("." ++ domain) with (String "." domain) in *.
  now apply replace_scan_absent.
Qed.

Lemma X7_strip_domain_without_occurrence_witness :
  _strip_domain "example.com" "notexample.com" = "notexample.com".
Proof.
  apply (X7_strip_domain_without_occurrence "example.com" "notexample.com").
  reflexivity.
Defined.

Lemma prefix_empty s : String.prefix "" s = true.
Proof. now destruct s. Qed.

Lemma dotless_prefix p rest x : forall i,
  PyStr.contains p "." = false ->
  i < String.length p ->
  PyStr.startswith (PyStr.drop i (p ++ rest)) (String "." x) = false.
Proof.
  induction p as [|c p IH]; intros i Hp Hi; [simpl in Hi; lia|].
  cbn [PyStr.contains] in Hp. apply orb_false_elim in Hp as [Hc Hp].
  destruct i as [|i].
  - unfold PyStr.startswith in *.
    cbn [PyStr.drop String.append String.prefix] in Hc |- *.
    rewrite prefix_empty in Hc.
    destruct (ascii_dec "." c); [discriminate Hc | reflexivity].
  - cbn [PyStr.drop String.append]. apply IH; [exact Hp | simpl in Hi; lia].
Qed.

Lemma strip_domain_label domain label :
  PyStr.contains label "." = false ->
  _strip_domain domain (label ++ "." ++ domain) = label.
Proof.
  intros H. apply strip_domain_single_suffix.
  intros i Hi. change ("." ++ domain) with (String "." domain).
  now apply dotless_prefix.
Qed.

(** X8: for a name made of a label without a dot, a dot and the domain (as
    the challenge names are: ["_acme-challenge." + domain]), what is
    returned is the label, whatever the domain is. *)
Theorem X8_strip_domain_of_label domain label :
  PyStr.contains label "." = false ->
  _strip_domain domain (label ++ "." ++ domain) = label.
Proof. apply strip_domain_label. Qed.

Lemma X8_strip_domain_of_label_witness :
  _strip_domain "example.com" ("_acme-challenge" ++ "." ++ "example.com")
  = "_acme-challenge".
Proof.
  apply (X8_strip_domain_of_label "example.com" "_acme-challenge").
  reflexivity.
Defined.

Lemma drop_all s : PyStr.drop (String.length s) s = "".
Proof. induction s as [|c s IH]; [reflexivity | exact IH]. Qed.

(** X9: with the empty string as domain every name counts as ending with
    it, and what is returned is the name without any of its dots. *)
Theorem X9_strip_domain_empty_domain fqdn :
  _strip_domain "" fqdn = remove_dots fqdn.
Proof.
  unfold _strip_domain, PyStr.endswith.
  cbn [String.length Nat.leb]. rewrite Nat.sub_0_r, drop_all.
  cbn [String.eqb andb String.append PyStr.replace].
  induction fqdn as [|c s IH]; [reflexivity|].
  cbn [PyStr.replace_scan remove_dots]. unfold PyStr.startswith.
  cbn [String.prefix String.length Nat.sub].
  destruct (ascii_dec "." c) as [Heq|Hne].
  - rewrite <- Heq, Ascii.eqb_refl, prefix_empty. cbn [String.append].
    exact IH.
  - assert (Ascii.eqb c "." = false) as ->.
    { apply Ascii.eqb_neq. congruence. }
    now rewrite IH.
Qed.

End StripDomainMore.

(** ** Runs of the client *)

Section RunFacts.

Lemma bind_run {A B} (m : M A) (k : A -> M B) w w' a :
  m w = (w', ok a) -> bind m k w = k a w'.
Proof. unfold bind. now intros ->. Qed.

Lemma bind_fail {A B} (m : M A) (k : A -> M B) w w' x :
  m w = (w', raise x) -> bind m k w = (w', raise x).
Proof. unfold bind. now intros ->. Qed.

Lemma posts_lift {A} self (r : result A) : posts self 0 (lift r).
Proof.
  intros w w' r' [= <- <-]. exists [], [].
  rewrite !app_nil_r. repeat split; constructor.
Qed.

Lemma posts_ret {A} self (a : A) : posts self 0 (ret a).
Proof. apply (posts_lift self (ok a)). Qed.

Lemma posts_throw {A} self x : posts self 0 (@throw A x).
Proof. apply (posts_lift self (raise x)). Qed.

Lemma posts_debug self line : posts self 0 (debug line).
Proof.
  intros w w' r [= <- <-]. exists [], [line]. simpl.
  rewrite app_nil_r. repeat split; constructor.
Qed.

Lemma posts_weaken {A} self n n' (m : M A) :
  n <= n' -> posts self n m -> posts self n' m.
Proof.
  intros Hn Hm w w' r Hrun.
  destruct (Hm w w' r Hrun) as (reqs & lines & H1 & H2 & H3 & H4).
  exists reqs, lines. repeat split; try assumption. lia.
Qed.

Lemma posts_bind {A B} self n k (m : M A) (f : A -> M B) :
  posts self n m -> (forall a, posts self k (f a)) ->
  posts self (n + k) (bind m f).
Proof.
  intros Hm Hf w w' r. unfold bind.
  destruct (m w) as [w1 [x|a]] eqn:Hrun.
  - intros [= <- <-].
    destruct (Hm w w1 _ Hrun) as (reqs & lines & H1 & H2 & H3 & H4).
    exists reqs, lines. repeat split; try assumption. lia.
  - intros Hrun'.
    destruct (Hm w w1 _ Hrun) as (reqs & lines & H1 & H2 & H3 & H4).
    destruct (Hf a w1 w' r Hrun') as (reqs' & lines' & H1' & H2' & H3' & H4').
    exists (reqs ++ reqs'), (lines ++ lines').
    rewrite H1', H1, H2', H2, !app_assoc, List.length_app.
    repeat split; [lia | now apply Forall_app].
Qed.

End RunFacts.

(** ** [_call] *)

Section CallFacts.

Variable repr : pyval -> string.
Variable repr_error : transport_error -> string.
Variable gw : gateway.

(** What [_log_call_error] adds to the log. *)
Lemma log_call_error_run self task response error w :
  _log_call_error repr repr_error (PDict (envelope self task)) response error w
  = (World (sent w)
       (log w
        ++ [("Error calling " ++ GATEWAY_URL)%string;
            ("Request was:  " ++ repr task)%string]
        ++ (if Py.is_none response then []
            else [("Response was: " ++ repr response)%string])
        ++ match error with
           | Some e => [("Error was:    " ++ repr_error e)%string]
           | None => []
           end)%list,
     ok tt).
Proof.
  unfold _log_call_error, envelope.
  cbv beta iota zeta delta [bind lift debug ret ok].
  cbn [Py.getitem Dict.get String.eqb Ascii.eqb Bool.eqb sent log].
  cbv beta iota delta [ok].
  destruct (Py.is_none response), error; cbn [negb sent log];
    rewrite <- ?app_assoc; reflexivity.
Qed.

(** The document of a request: the credentials, the language, the task. *)
Lemma request_document self task :
  XML.marshal "request" (envelope self task)
  = rbind (Spec.encode "task" task)
      (fun es => ok (Element "request" None
                       (auth_element self
                        :: Element "language" (Some "en") [] :: es))).
Proof.
  rewrite marshal_document. unfold Spec.document, envelope.
  rewrite !concat_map_cons.
  change (Spec.entry_elements ("task", task)) with (Spec.encode "task" task).
  destruct (Spec.encode "task" task) as [x|es]; [reflexivity|].
  simpl. now rewrite app_nil_r.
Qed.

Lemma request_enveloped self task req :
  XML.marshal "request" (envelope self task) = ok req -> enveloped self req.
Proof.
  rewrite request_document.
  destruct (Spec.encode "task" task) as [x|es] eqn:E; [discriminate|].
  intros [= <-]. now exists task, es.
Qed.

(** The run of a call, by what becomes of the request. *)
Lemma call_run self task w :
  match XML.marshal "request" (envelope self task) with
  | inl x => _call repr repr_error gw self task w = (w, raise x)
  | inr req =>
      exists lines r,
        _call repr repr_error gw self task w
        = (World (sent w ++ [req]) (log w ++ lines), r)
        /\ match r with inr _ => lines = [] | inl _ => True end
  end.
Proof.
  unfold _call, XML.tostring, XML.fromstring.
  cbv beta iota zeta delta [bind lift post throw ok].
  change [("auth", _auth self); ("language", PStr "en"); ("task", task)]
    with (envelope self task).
  destruct (XML.marshal "request" (envelope self task)) as [x|req];
    [reflexivity|].
  destruct (gw (sent w) req) as [body|[code reason|reason]]; cbv beta iota.
  - destruct (Py.is_none (XML.unmarshal body)) eqn:En; cbn [negb];
      cbv beta iota delta [ok].
    + rewrite log_call_error_run. cbv beta iota delta [ok].
      eexists. eexists. split; [reflexivity | exact I].
    + destruct (Py.getitem (XML.unmarshal body) "result") as [x|res];
        cbv beta iota delta [rbind ok].
      * exists [], (inl x). rewrite app_nil_r. now split.
      * destruct (Py.is_none res); cbn [negb]; cbv beta iota.
        -- rewrite log_call_error_run. cbv beta iota delta [ok].
           eexists. eexists. split; [reflexivity | exact I].
        -- exists [], (inr res). rewrite app_nil_r. now split.
  - rewrite log_call_error_run. cbv beta iota delta [ok].
    eexists. eexists. split; [reflexivity | exact I].
  - rewrite log_call_error_run. cbv beta iota delta [ok].
    eexists. eexists. split; [reflexivity | exact I].
Qed.

(** X10: [_call] posts the request once and never again: nothing is posted
    or logged when the task cannot be marshalled, the exception being passed
    on; else exactly the document of the request is posted, whatever the
    gateway answers, and a call that returns a result has logged nothing. *)
Theorem X10_call_posts_once self task w :
  match XML.marshal "request" (envelope self task) with
  | inl x => _call repr repr_error gw self task w = (w, raise x)
  | inr req =>
      exists lines r,
        _call repr repr_error gw self task w
        = (World (sent w ++ [req]) (log w ++ lines), r)
        /\ match r with inr _ => lines = [] | inl _ => True end
  end.
Proof. apply call_run. Qed.

Lemma call_transport_failure self task w req e :
  XML.marshal "request" (envelope self task) = ok req ->
  gw (sent w) req = Fails e ->
  _call repr repr_error gw self task w
  = (World (sent w ++ [req])
       (log w ++ [("Error calling " ++ GATEWAY_URL)%string;
                  ("Request was:  " ++ repr task)%string;
                  ("Error was:    " ++ repr_error e)%string]),
     raise (PluginError (communication_error e))).
Proof.
  intros Hreq Hgw.
  unfold _call, XML.tostring, XML.fromstring.
  cbv beta iota zeta delta [bind lift post throw ok].
  change [("auth", _auth self); ("language", PStr "en"); ("task", task)]
    with (envelope self task).
  rewrite Hreq. cbv beta iota delta [ok]. rewrite Hgw.
  destruct e as [code reason|reason]; cbv beta iota;
    rewrite log_call_error_run; reflexivity.
Qed.

(** X11: when the transport fails ([HTTPError] or [URLError] from
    [urlopen]), [_call] raises the plugin's communication error, with the
    status code and the reason, or the reason alone, in the message, after
    logging the task and the error; the request was posted once. *)
Theorem X11_call_transport_failure self task w req e :
  XML.marshal "request" (envelope self task) = ok req ->
  gw (sent w) req = Fails e ->
  _call repr repr_error gw self task w
  = (World (sent w ++ [req])
       (log w ++ [("Error calling " ++ GATEWAY_URL)%string;
                  ("Request was:  " ++ repr task)%string;
                  ("Error was:    " ++ repr_error e)%string]),
     raise (PluginError (communication_error e))).
Proof. apply call_transport_failure. Qed.

Lemma call_posts self task : posts self 1 (_call repr repr_error gw self task).
Proof.
  intros w w' r Hrun. pose proof (call_run self task w) as H.
  destruct (XML.marshal "request" (envelope self task)) as [x|req] eqn:E.
  - rewrite H in Hrun. injection Hrun as <- <-.
    exists [], []. rewrite !app_nil_r.
    split; [reflexivity|]. split; [reflexivity|].
    split; [simpl; lia | constructor].
  - destruct H as (lines & r' & H & _). rewrite H in Hrun.
    injection Hrun as <- <-. exists [req], lines.
    split; [reflexivity|]. split; [reflexivity|].
    split; [simpl; lia|]. constructor; [|constructor].
    eapply request_enveloped, E.
Qed.

End CallFacts.

Lemma X11_call_transport_failure_witness :
  _call Sample.repr Sample.repr_error
    (fun _ _ => Fails (HTTPError 503 "Service Unavailable"))
    Sample.self Sample.zone_task (World [] [])
  = (World (sent (World [] []) ++ [lookup_request Sample.self "example.com"])
       (log (World [] [])
        ++ [("Error calling " ++ GATEWAY_URL)%string;
            ("Request was:  " ++ Sample.repr Sample.zone_task)%string;
            ("Error was:    "
             ++ Sample.repr_error (HTTPError 503 "Service Unavailable"))%string]),
     raise (PluginError
              (communication_error (HTTPError 503 "Service Unavailable")))).
Proof.
  apply (X11_call_transport_failure Sample.repr Sample.repr_error
           (fun _ _ => Fails (HTTPError 503 "Service Unavailable"))
           Sample.self Sample.zone_task (World [] [])
           (lookup_request Sample.self "example.com")
           (HTTPError 503 "Service Unavailable")); reflexivity.
Defined.

(** ** Zone lookup and the scan of the records *)

Section ZoneFacts.

Variable repr : pyval -> string.
Variable repr_error : transport_error -> string.
Variable gw : gateway.

Lemma zone_info_run self domain w w1 res st ty :
  _call repr repr_error gw self (lookup_task domain) w = (w1, ok (PDict res)) ->
  Dict.get res "status" = Some (PDict st) ->
  Dict.get st "type" = Some ty ->
  _zone_info repr repr_error gw self domain w
  = if Py.eq_str ty "success"
    then (w1, match Dict.get res "data" with
              | Some data => Py.getitem data "zone"
              | None => raise (KeyError "data")
              end)
    else (World (sent w1)
            (log w1 ++ [("Failed retrieving zone " ++ domain)%string;
                        ("Response was: " ++ repr (PDict res))%string]),
          raise (PluginError
                   ("Unable to find a SchlundTech zone for " ++ domain))).
Proof.
  intros Hcall Hst Hty. unfold lookup_task in Hcall. unfold _zone_info.
  rewrite (bind_run _ _ _ _ _ Hcall).
  assert (Py.truthy (PDict res) = true) as -> by (destruct res; [discriminate Hst | reflexivity]).
  cbn [Py.getitem]. rewrite Hst. cbn [rbind ok Py.getitem]. rewrite Hty.
  cbn [rbind ok].
  cbv beta iota delta [bind lift debug throw ok].
  destruct (Py.eq_str ty "success"); cbv beta iota.
  - now destruct (Dict.get res "data").
  - cbn [sent log]. now rewrite <- app_assoc.
Qed.

(** X12: a zone lookup answered with a status type other than ["success"]
    raises the plugin's error naming the domain, after two lines of log and
    without another request; answered with ["success"] it returns
    [result['data']['zone']], a missing [data] or [zone] being a
    [KeyError]. *)
Theorem X12_zone_info_outcome self domain w w1 res st ty :
  _call repr repr_error gw self (lookup_task domain) w = (w1, ok (PDict res)) ->
  Dict.get res "status" = Some (PDict st) ->
  Dict.get st "type" = Some ty ->
  _zone_info repr repr_error gw self domain w
  = if Py.eq_str ty "success"
    then (w1, match Dict.get res "data" with
              | Some data => Py.getitem data "zone"
              | None => raise (KeyError "data")
              end)
    else (World (sent w1)
            (log w1 ++ [("Failed retrieving zone " ++ domain)%string;
                        ("Response was: " ++ repr (PDict res))%string]),
          raise (PluginError
                   ("Unable to find a SchlundTech zone for " ++ domain))).
Proof. apply zone_info_run. Qed.

Lemma scan_rr_find prefix validation rrs :
  forallb is_record rrs = true ->
  scan_rr prefix validation rrs
  = ok (option_map record_value (find (conflicts prefix validation) rrs)).
Proof.
  induction rrs as [|rr rrs IH]; [reflexivity|].
  cbn [forallb find scan_rr]. intros H. apply andb_prop in H as [Hrr Hrec].
  specialize (IH Hrec).
  destruct rr as [ | | | | | d | | ]; try discriminate Hrr.
  unfold conflicts. cbn [is_record Py.getitem] in Hrr |- *.
  destruct (Dict.get d "name") as [n|] eqn:Hn; [|discriminate].
  destruct (Dict.get d "value") as [[ | v | | | | | | ]|] eqn:Hv;
    try discriminate Hrr.
  cbn [rbind ok].
  destruct n as [ | n | | | | | | ]; cbn [Py.eq_str]; try exact IH.
  destruct (String.eqb n prefix); cbn [andb rbind ok Py.eq_str];
    [|exact IH].
  destruct (String.eqb v validation); cbn [negb]; [exact IH|].
  cbn [option_map]. unfold record_value. cbn [Py.getitem].
  now rewrite Hv.
Qed.

Lemma current_value_run d domain validation_name validation :
  forallb is_record (zone_records (PDict d)) = true ->
  exists info',
    _current_value (PDict d) domain validation_name validation
    = ok (info',
          match find (conflicts (_strip_domain domain validation_name)
                                validation) (zone_records (PDict d)) with
          | Some rr => record_value rr
          | None => PNone
          end)
    /\ forall k, String.eqb "rr" k = false ->
                 Py.getitem info' k = Py.getitem (PDict d) k.
Proof.
  intros Hrec. unfold _current_value.
  cbn [Py.contains]. unfold Dict.mem.
  cbn [zone_records] in *. cbn [Py.getitem].
  destruct (Dict.get d "rr") as [rr|] eqn:Hrr; cbn [rbind ok].
  - destruct (Py.is_list rr) eqn:Hl; cbn [negb].
    + destruct rr; try discriminate Hl. cbn [rbind ok Py.getitem].
      rewrite Hrr. cbn [rbind ok Py.iter].
      rewrite (scan_rr_find _ _ _ Hrec). cbn [rbind ok].
      exists (PDict d). split; [|reflexivity].
      now destruct (find _ items).
    + cbn [Py.setitem rbind ok Py.getitem]. rewrite get_set_same.
      cbn [rbind ok Py.iter].
      assert (zone_records (PDict d) = [rr]) as Hz.
      { cbn [zone_records]. rewrite Hrr. now destruct rr. }
      cbn [zone_records] in Hz. rewrite Hrr in Hz. rewrite Hz in *.
      rewrite (scan_rr_find _ _ _ Hrec). cbn [rbind ok].
      exists (PDict (Dict.set d "rr" (PList [rr]))). split.
      * now destruct (find _ [rr]).
      * intros k Hk. cbn [Py.getitem]. rewrite get_set_other; [reflexivity|].
        now apply String.eqb_neq.
  - exists (PDict d). now split.
Qed.

(** X13: on a zone whose records are maps with a name and a string value,
    [_current_value] returns the value of the first record, in the order of
    the zone, that has the relative name and another value than the one
    asked about, and [None] when there is none or the zone has no [rr];
    the zone it hands on is the same at every key but [rr]. *)
Theorem X13_current_value_first_conflict d domain validation_name validation :
  forallb is_record (zone_records (PDict d)) = true ->
  exists info',
    _current_value (PDict d) domain validation_name validation
    = ok (info',
          match find (conflicts (_strip_domain domain validation_name)
                                validation) (zone_records (PDict d)) with
          | Some rr => record_value rr
          | None => PNone
          end)
    /\ forall k, String.eqb "rr" k = false ->
                 Py.getitem info' k = Py.getitem (PDict d) k.
Proof. apply current_value_run. Qed.

(** X14: where the zone has an [rr] entry, [_current_value] leaves it a
    list in the zone it hands on: a bare record has become the list of this
    one record, a list is kept; every other key is as before. *)
Theorem X14_current_value_normalizes_rr
  info domain validation_name validation info' x :
  _current_value info domain validation_name validation = ok (info', x) ->
  (forall k, String.eqb "rr" k = false ->
             Py.getitem info' k = Py.getitem info k)
  /\ match info with
     | PDict d =>
         match Dict.get d "rr" with
         | Some _ => Py.getitem info' "rr" = ok (PList (zone_records info))
         | None => info' = info /\ x = PNone
         end
     | _ => info' = info /\ x = PNone
     end.
Proof.
  unfold _current_value.
  destruct info as [ | s | z | f | l | d | d | s]; cbn [Py.contains];
    try discriminate.
  - destruct (PyStr.contains s "rr"); cbn [rbind ok Py.getitem raise];
      [discriminate|]. intros [= <- <-]. now repeat split.
  - destruct (existsb _ l); cbn [rbind ok Py.getitem raise];
      [discriminate|]. intros [= <- <-]. now repeat split.
  - unfold Dict.mem. cbn [Py.getitem zone_records].
    destruct (Dict.get d "rr") as [rr|] eqn:Hrr; cbn [rbind ok].
    + destruct (Py.is_list rr) eqn:Hl; cbn [negb].
      * destruct rr; try discriminate Hl. cbn [rbind ok Py.getitem].
        rewrite Hrr. cbn [rbind ok Py.iter].
        destruct (scan_rr _ validation items) as [e|[v|]];
          cbn [rbind ok]; try discriminate;
          intros [= <- _]; cbn [Py.getitem]; rewrite Hrr; now split.
      * cbn [Py.setitem rbind ok Py.getitem]. rewrite get_set_same.
        cbn [rbind ok Py.iter].
        assert (forall k, String.eqb "rr" k = false ->
                  Py.getitem (PDict (Dict.set d "rr" (PList [rr]))) k
                  = Py.getitem (PDict d) k) as Hkeep.
        { intros k Hk. cbn [Py.getitem]. rewrite get_set_other; [reflexivity|].
          now apply String.eqb_neq. }
        assert (match rr with PList l0 => l0 | _ => [rr] end = [rr]) as Hone
          by now destruct rr.
        destruct (scan_rr _ validation [rr]) as [e|[v|]];
          cbn [rbind ok]; try discriminate;
          intros [= <- _]; cbn [Py.getitem]; rewrite get_set_same, Hone;
          now split.
    + intros [= <- <-]. now repeat split.
Qed.

End ZoneFacts.

Lemma X12_zone_info_outcome_witness :
  _zone_info Sample.repr Sample.repr_error
    (Sample.gw (Sample.update_reply "error" []) (Sample.update_reply "error" []))
    Sample.self "example.com" (World [] [])
  = if Py.eq_str (PStr "error") "success"
    then (World [lookup_request Sample.self "example.com"] [],
          match Dict.get [("status", PDict [("type", PStr "error")])] "data" with
          | Some data => Py.getitem data "zone"
          | None => raise (KeyError "data")
          end)
    else (World (sent (World [lookup_request Sample.self "example.com"] []))
            (log (World [lookup_request Sample.self "example.com"] [])
             ++ [("Failed retrieving zone " ++ "example.com")%string;
                 ("Response was: "
                  ++ Sample.repr
                       (PDict [("status", PDict [("type", PStr "error")])]))%string]),
          raise (PluginError
                   ("Unable to find a SchlundTech zone for " ++ "example.com"))).
Proof.
  apply (X12_zone_info_outcome Sample.repr Sample.repr_error
           (Sample.gw (Sample.update_reply "error" [])
                      (Sample.update_reply "error" []))
           Sample.self "example.com" (World [] [])
           (World [lookup_request Sample.self "example.com"] [])
           [("status", PDict [("type", PStr "error")])]
           [("type", PStr "error")] (PStr "error")); reflexivity.
Defined.

Lemma X13_current_value_first_conflict_witness :
  let d := [("name", PStr "example.com");
            ("rr", PList [XML.unmarshal (Sample.record "www" "1.2.3.4");
                          XML.unmarshal (Sample.record "_acme-challenge" "OLD");
                          XML.unmarshal (Sample.record "_acme-challenge" "OLDER")])] in
  exists info',
    _current_value (PDict d) "example.com" "_acme-challenge.example.com" "TOKEN"
    = ok (info',
          match find (conflicts (_strip_domain "example.com"
                                   "_acme-challenge.example.com") "TOKEN")
                     (zone_records (PDict d)) with
          | Some rr => record_value rr
          | None => PNone
          end)
    /\ forall k, String.eqb "rr" k = false ->
                 Py.getitem info' k = Py.getitem (PDict d) k.
Proof.
  apply (X13_current_value_first_conflict
           [("name", PStr "example.com");
            ("rr", PList [XML.unmarshal (Sample.record "www" "1.2.3.4");
                          XML.unmarshal (Sample.record "_acme-challenge" "OLD");
                          XML.unmarshal (Sample.record "_acme-challenge" "OLDER")])]
           "example.com" "_acme-challenge.example.com" "TOKEN").
  reflexivity.
Defined.

Lemma X14_current_value_normalizes_rr_witness :
  let info := PDict [("system_ns", PStr "a.ns.de");
                     ("rr", XML.unmarshal (Sample.record "www" "1.2.3.4"))] in
  let info' := PDict [("system_ns", PStr "a.ns.de");
                      ("rr", PList [XML.unmarshal (Sample.record "www" "1.2.3.4")])] in
  (forall k, String.eqb "rr" k = false ->
             Py.getitem info' k = Py.getitem info k)
  /\ Py.getitem info' "rr" = ok (PList (zone_records info)).
Proof.
  apply (X14_current_value_normalizes_rr
           (PDict [("system_ns", PStr "a.ns.de");
                   ("rr", XML.unmarshal (Sample.record "www" "1.2.3.4"))])
           "example.com" "_acme-challenge.example.com" "TOKEN"
           (PDict [("system_ns", PStr "a.ns.de");
                   ("rr", PList [XML.unmarshal (Sample.record "www" "1.2.3.4")])])
           PNone).
  reflexivity.
Defined.

(** ** [add_txt_record] and [del_txt_record] *)

Section OperationFacts.

Variable repr : pyval -> string.
Variable repr_error : transport_error -> string.
Variable gw : gateway.

Lemma lookup_request_document self domain :
  XML.marshal "request" (envelope self (lookup_task domain))
  = ok (lookup_request self domain).
Proof. reflexivity. Qed.


Lemma rem_request_document self domain sns name validation :
  XML.marshal "request"
    (envelope self (rem_task self domain sns name validation))
  = rbind (Spec.encode "system_ns" sns) (fun ns =>
    if PyStr.fits (ttl self)
    then ok (update_request self domain ns
               (record_element "rr_rem" (_strip_domain domain name) validation
                  (ttl self))
               [])
    else raise ValueError).
Proof.
  rewrite request_document. unfold rem_task, txt_record.
  cbn [Spec.encode Spec.concat_map fst snd app]. unfold str_int.
  destruct (Spec.encode "system_ns" sns) as [x|ns]; [reflexivity|].
  cbn [rbind ok]. destruct (PyStr.fits (ttl self)); [|reflexivity].
  cbn [rbind ok app]. unfold update_request, record_element.
  now rewrite !app_nil_r.
Qed.

Lemma zone_info_posts_lookup self domain w w1 info :
  _zone_info repr repr_error gw self domain w = (w1, ok info) ->
  sent w1 = sent w ++ [lookup_request self domain].
Proof.
  unfold _zone_info. cbv beta iota zeta delta [bind].
  destruct (_call repr repr_error gw self _ w) as [w' [x|res]] eqn:Hcall;
    [discriminate|].
  apply call_sent in Hcall as (req & Hreq & Hsent).
  injection Hreq as <-.
  cbv beta iota delta [lift throw debug].
  match goal with
  | |- context [if Py.truthy res then ?a else ?b] =>
      destruct (if Py.truthy res then a else b) as [x|[|]]
  end; cbv beta iota; try discriminate.
  intros [= <- _]. exact Hsent.
Qed.


(** What the test and the message of a rejected update come to. *)
Lemma update_failed_run res st ty :
  Dict.get res "status" = Some (PDict st) ->
  Dict.get st "type" = Some ty ->
  update_failed (PDict res) = ok (negb (Py.eq_str ty "success")).
Proof.
  intros Hst Hty. unfold update_failed.
  cbn [Py.is_none Py.getitem]. rewrite Hst. cbn [rbind ok Py.getitem].
  now rewrite Hty.
Qed.

Lemma status_text_run res st t :
  Dict.get res "status" = Some (PDict st) ->
  Dict.get st "text" = option_map PStr t ->
  status_text (PDict res) = ok (text_suffix t).
Proof.
  intros Hst Ht. destruct t as [s|]; simpl in Ht.
  - now apply (status_text_string (PDict res) st s); [simpl; rewrite Hst|].
  - now apply (status_text_missing (PDict res) st); [simpl; rewrite Hst|].
Qed.


Lemma del_core self domain name validation w w1 d sns w2 res st ty :
  _zone_info repr repr_error gw self domain w = (w1, ok (PDict d)) ->
  Dict.get d "system_ns" = Some sns ->
  _call repr repr_error gw self
    (rem_task self domain sns name validation) w1 = (w2, ok (PDict res)) ->
  Dict.get res "status" = Some (PDict st) ->
  Dict.get st "type" = Some ty ->
  del_txt_record repr repr_error gw self domain name validation w
  = if Py.eq_str ty "success" then (w2, ok tt)
    else
      let w3 := World (sent w2)
                  (log w2 ++ [("Failed removing TXT record '" ++ name
                               ++ "' for domain '" ++ domain ++ "'")%string;
                              ("Response was: " ++ repr (PDict res))%string]) in
      match status_text (PDict res) with
      | inl x => (w3, inl x)
      | inr msg =>
          (w3, raise (PluginError
                        ("Unable to remove TXT record for " ++ domain ++ ": "
                         ++ name ++ msg)))
      end.
Proof.
  intros Hzone Hsns Hcall Hst Hty.
  unfold rem_task, txt_record in Hcall.
  unfold del_txt_record.
  rewrite (bind_run _ _ _ _ _ Hzone).
  cbv beta iota delta [bind lift ok].
  cbn [Py.getitem]. rewrite Hsns.
  cbv beta iota delta [ok]. rewrite Hcall. cbv beta iota delta [ok].
  rewrite (update_failed_run _ _ _ Hst Hty).
  cbv beta iota zeta delta [ok debug throw ret].
  destruct (Py.eq_str ty "success"); cbn [negb]; cbv beta iota;
    [reflexivity|].
  cbn [sent log]. rewrite <- app_assoc.
  now destruct (status_text (PDict res)).
Qed.


Lemma del_posted self domain name validation w w1 info sns w2 res :
  _zone_info repr repr_error gw self domain w = (w1, ok info) ->
  _call repr repr_error gw self
    (rem_task self domain sns name validation) w1 = (w2, ok res) ->
  exists ns,
    Spec.encode "system_ns" sns = ok ns
    /\ sent w2
       = sent w ++ [lookup_request self domain;
                    update_request self domain ns
                      (record_element "rr_rem" (_strip_domain domain name)
                         validation (ttl self))
                      []].
Proof.
  intros Hzone Hcall.
  pose proof (zone_info_posts_lookup _ _ _ _ _ Hzone) as Hlookup.
  apply call_sent in Hcall as (req & Hreq & Hsent).
  fold (envelope self (rem_task self domain sns name validation)) in Hreq.
  rewrite rem_request_document in Hreq.
  destruct (Spec.encode "system_ns" sns) as [x|ns]; [discriminate|].
  cbn [rbind] in Hreq.
  destruct (PyStr.fits (ttl self)); [|discriminate].
  injection Hreq as <-. exists ns.
  split; [reflexivity|].
  rewrite Hsent, Hlookup, <- app_assoc. reflexivity.
Qed.


(** X16: [del_txt_record] does not look at the records of the zone: after
    the lookup it posts the zone update of code 0202001 with the record
    under [rr_rem] and no [soa]; it returns when the status type of the
    answer is ["success"], and else raises the plugin's error, whose
    message ends with the status text where there is one. *)
Theorem X16_del_outcome
  self domain name validation w w1 d sns w2 res st ty t :
  _zone_info repr repr_error gw self domain w = (w1, ok (PDict d)) ->
  Dict.get d "system_ns" = Some sns ->
  _call repr repr_error gw self
    (rem_task self domain sns name validation) w1 = (w2, ok (PDict res)) ->
  Dict.get res "status" = Some (PDict st) ->
  Dict.get st "type" = Some ty ->
  Dict.get st "text" = option_map PStr t ->
  del_txt_record repr repr_error gw self domain name validation w
  = (if Py.eq_str ty "success" then (w2, ok tt)
     else (World (sent w2)
             (log w2 ++ [("Failed removing TXT record '" ++ name
                          ++ "' for domain '" ++ domain ++ "'")%string;
                         ("Response was: " ++ repr (PDict res))%string]),
           raise (PluginError
                    ("Unable to remove TXT record for " ++ domain ++ ": "
                     ++ name ++ text_suffix t))))
  /\ exists ns,
       Spec.encode "system_ns" sns = ok ns
       /\ sent w2
          = sent w ++ [lookup_request self domain;
                       update_request self domain ns
                         (record_element "rr_rem" (_strip_domain domain name)
                            validation (ttl self))
                         []].
Proof.
  intros Hzone Hsns Hcall Hst Hty Htxt. split.
  - rewrite (del_core _ _ _ _ _ _ _ _ _ _ _ _ Hzone Hsns Hcall Hst Hty).
    cbv zeta. now rewrite (status_text_run _ _ _ Hst Htxt).
  - eapply del_posted; eassumption.
Qed.

Lemma zone_info_transport_failure self domain w e :
  gw (sent w) (lookup_request self domain) = Fails e ->
  _zone_info repr repr_error gw self domain w
  = (World (sent w ++ [lookup_request self domain])
       (log w ++ [("Error calling " ++ GATEWAY_URL)%string;
                  ("Request was:  " ++ repr (lookup_task domain))%string;
                  ("Error was:    " ++ repr_error e)%string]),
     raise (PluginError (communication_error e))).
Proof.
  intros Hgw. unfold _zone_info.
  apply bind_fail.
  apply (call_transport_failure repr repr_error gw self (lookup_task domain));
    [apply lookup_request_document | exact Hgw].
Qed.

(** X17: when the transport fails on the zone lookup, [add_txt_record] and
    [del_txt_record] raise the plugin's communication error; the lookup is
    the only request posted, no update is tried. *)
Theorem X17_lookup_transport_failure self domain name validation w e :
  gw (sent w) (lookup_request self domain) = Fails e ->
  add_txt_record repr repr_error gw self domain name validation w
  = (World (sent w ++ [lookup_request self domain])
       (log w ++ [("Error calling " ++ GATEWAY_URL)%string;
                  ("Request was:  " ++ repr (lookup_task domain))%string;
                  ("Error was:    " ++ repr_error e)%string]),
     raise (PluginError (communication_error e)))
  /\ del_txt_record repr repr_error gw self domain name validation w
     = (World (sent w ++ [lookup_request self domain])
          (log w ++ [("Error calling " ++ GATEWAY_URL)%string;
                     ("Request was:  " ++ repr (lookup_task domain))%string;
                     ("Error was:    " ++ repr_error e)%string]),
        raise (PluginError (communication_error e))).
Proof.
  intros Hgw. split.
  - unfold add_txt_record. apply bind_fail.
    now apply zone_info_transport_failure.
  - unfold del_txt_record. apply bind_fail.
    now apply zone_info_transport_failure.
Qed.

Lemma zone_info_posts self domain :
  posts self 1 (_zone_info repr repr_error gw self domain).
Proof.
  unfold _zone_info.
  apply (posts_bind self 1 0); [apply call_posts|]. intros res.
  apply (posts_bind self 0 0); [apply posts_lift|]. intros [|].
  - apply posts_lift.
  - apply (posts_bind self 0 0); [apply posts_debug|]. intros _.
    apply (posts_bind self 0 0); [apply posts_debug|]. intros _.
    apply posts_throw.
Qed.

Lemma update_posts {A} self task (k : pyval -> M A) :
  (forall res, posts self 0 (k res)) ->
  posts self 1 (bind (_call repr repr_error gw self task) k).
Proof.
  intros Hk. apply (posts_bind self 1 0); [apply call_posts | exact Hk].
Qed.

Lemma add_posts self domain name validation :
  posts self 2 (add_txt_record repr repr_error gw self domain name validation).
Proof.
  unfold add_txt_record.
  apply (posts_bind self 1 1); [apply zone_info_posts|]. intros info.
  apply (posts_bind self 0 1); [apply posts_lift|]. intros [info' cv].
  destruct (negb (Py.is_none cv) && negb (Py.eq_str cv validation)).
  - apply (posts_weaken self 0); [lia|].
    apply (posts_bind self 0 0); [apply posts_lift|]. intros shown.
    apply (posts_bind self 0 0); [apply posts_debug|]. intros _.
    apply posts_throw.
  - destruct (Py.eq_str cv validation).
    + apply (posts_weaken self 0); [lia | apply posts_debug].
    + apply (posts_bind self 0 1); [apply posts_lift|]. intros sns.
      apply (posts_bind self 0 1); [apply posts_lift|]. intros soa.
      apply update_posts. intros res.
      apply (posts_bind self 0 0); [apply posts_lift|]. intros [|].
      * apply (posts_bind self 0 0); [apply posts_debug|]. intros _.
        apply (posts_bind self 0 0); [apply posts_debug|]. intros _.
        apply (posts_bind self 0 0); [apply posts_lift|]. intros msg.
        apply posts_throw.
      * apply posts_ret.
Qed.

Lemma del_posts self domain name validation :
  posts self 2 (del_txt_record repr repr_error gw self domain name validation).
Proof.
  unfold del_txt_record.
  apply (posts_bind self 1 1); [apply zone_info_posts|]. intros info.
  apply (posts_bind self 0 1); [apply posts_lift|]. intros sns.
  apply update_posts. intros res.
  apply (posts_bind self 0 0); [apply posts_lift|]. intros [|].
  - apply (posts_bind self 0 0); [apply posts_debug|]. intros _.
    apply (posts_bind self 0 0); [apply posts_debug|]. intros _.
    apply (posts_bind self 0 0); [apply posts_lift|]. intros msg.
    apply posts_throw.
  - apply posts_ret.
Qed.

(** X18: whatever the gateway answers, [add_txt_record] and
    [del_txt_record] post at most two requests; each is the request of a
    task, with the credentials and the language in front; nothing posted
    or logged before is taken back. *)
Theorem X18_operations_post_at_most_two self domain name validation :
  posts self 2 (add_txt_record repr repr_error gw self domain name validation)
  /\ posts self 2
       (del_txt_record repr repr_error gw self domain name validation).
Proof. split; [apply add_posts | apply del_posts]. Qed.

End OperationFacts.

(** ** [Authenticator] *)

Section AuthenticatorFacts.

Variable repr : pyval -> string.
Variable repr_error : transport_error -> string.
Variable gw : gateway.
Variable conf : string -> string.


(** X20: [_cleanup] for a challenge name, with the update accepted: the
    operation returns, whatever records the zone holds, and what was posted
    is the lookup and one zone update whose [rr_rem] is the record of the
    label, of type TXT, with the validation as value and the ttl 60, and
    nothing else under [default]. *)
Theorem X20_cleanup_removes_challenge_record
  domain label validation w w1 d sns w2 res st :
  PyStr.contains label "." = false ->
  _zone_info repr repr_error gw (_get_gateway_client conf) domain w
  = (w1, ok (PDict d)) ->
  Dict.get d "system_ns" = Some sns ->
  _call repr repr_error gw (_get_gateway_client conf)
    (rem_task (_get_gateway_client conf) domain sns
       (label ++ "." ++ domain) validation) w1
  = (w2, ok (PDict res)) ->
  Dict.get res "status" = Some (PDict st) ->
  Dict.get st "type" = Some (PStr "success") ->
  _cleanup repr repr_error gw conf domain (label ++ "." ++ domain) validation w
  = (w2, ok tt)
  /\ exists ns,
       sent w2
       = sent w
         ++ [lookup_request (_get_gateway_client conf) domain;
             update_request (_get_gateway_client conf) domain ns
               (Element "rr_rem" None
                  [Element "name" (Some label) [];
                   Element "type" (Some "TXT") [];
                   Element "value" (Some validation) [];
                   Element "ttl" (Some "60") []])
               []].
Proof.
  intros Hlabel Hzone Hsns Hcall Hst Hty.
  pose proof (strip_domain_label domain label Hlabel) as Hstrip.
  split.
  - unfold _cleanup.
    now rewrite (del_core _ _ _ _ _ _ _ _ _ _ _ _ _ _ _
                   Hzone Hsns Hcall Hst Hty).
  - destruct (del_posted _ _ _ _ _ _ _ _ _ _ _ _ _ Hzone Hcall)
      as (ns & _ & Hsent).
    exists ns. rewrite Hsent, Hstrip. reflexivity.
Qed.

End AuthenticatorFacts.


Lemma X16_del_outcome_witness :
  snd (del_txt_record Sample.repr Sample.repr_error
         (Sample.gw (Sample.zone_reply [Sample.record "_acme-challenge" "OLD"])
                    (Sample.update_reply "success" []))
         Sample.self "example.com" "_acme-challenge.example.com" "TOKEN"
         (World [] []))
  = ok tt.
Proof.
  edestruct (X16_del_outcome Sample.repr Sample.repr_error
               (Sample.gw (Sample.zone_reply
                             [Sample.record "_acme-challenge" "OLD"])
                          (Sample.update_reply "success" []))
               Sample.self "example.com" "_acme-challenge.example.com" "TOKEN"
               (World [] [])) as [H _];
    [ vm_compute; reflexivity
    | reflexivity
    | vm_compute; reflexivity
    | reflexivity | reflexivity
    | exact (eq_refl : _ = option_map PStr None)
    | rewrite H; reflexivity ].
Defined.

Lemma X17_lookup_transport_failure_witness :
  snd (add_txt_record Sample.repr Sample.repr_error
         (fun _ _ => Fails (URLError "timed out"))
         Sample.self "example.com" "_acme-challenge.example.com" "TOKEN"
         (World [] []))
  = raise (PluginError (communication_error (URLError "timed out")))
  /\ sent (fst (del_txt_record Sample.repr Sample.repr_error
                  (fun _ _ => Fails (URLError "timed out"))
                  Sample.self "example.com" "_acme-challenge.example.com"
                  "TOKEN" (World [] [])))
     = [lookup_request Sample.self "example.com"].
Proof.
  destruct (X17_lookup_transport_failure Sample.repr Sample.repr_error
              (fun _ _ => Fails (URLError "timed out"))
              Sample.self "example.com" "_acme-challenge.example.com" "TOKEN"
              (World [] []) (URLError "timed out") eq_refl) as [Ha Hd].
  rewrite Ha, Hd. split; reflexivity.
Defined.


Lemma X20_cleanup_removes_challenge_record_witness :
  exists w2,
    _cleanup Sample.repr Sample.repr_error
      (Sample.gw (Sample.zone_reply [Sample.record "_acme-challenge" "TOKEN"])
                 (Sample.update_reply "success" []))
      (fun key => key) "example.com"
      ("_acme-challenge" ++ "." ++ "example.com") "TOKEN" (World [] [])
    = (w2, ok tt).
Proof.
  eexists.
  eapply (X20_cleanup_removes_challenge_record Sample.repr Sample.repr_error
            (Sample.gw (Sample.zone_reply
                          [Sample.record "_acme-challenge" "TOKEN"])
                       (Sample.update_reply "success" []))
            (fun key => key) "example.com" "_acme-challenge" "TOKEN"
            (World [] []));
    [ reflexivity
    | vm_compute; reflexivity
    | reflexivity
    | vm_compute; reflexivity
    | reflexivity | reflexivity ].
Defined.

(** ** Lists on the wire *)

Section ListFacts.

Import XML.

Lemma concat_map_app {A} (f : A -> result (list element)) (a b : list A) :
  Spec.concat_map f (a ++ b)
  = match Spec.concat_map f a with
    | inl x => inl x
    | inr ea =>
        match Spec.concat_map f b with
        | inl x => inl x
        | inr eb => ok (ea ++ eb)
        end
    end.
Proof.
  induction a as [|x a IH]; simpl.
  - now destruct (Spec.concat_map f b).
  - destruct (f x) as [e|ex]; [reflexivity|]. rewrite IH.
    destruct (Spec.concat_map f a) as [e|ea]; [reflexivity|].
    destruct (Spec.concat_map f b) as [e|eb]; [reflexivity|].
    unfold ok. now rewrite app_assoc.
Qed.

Lemma encode_list k items :
  Spec.encode k (PList items) = Spec.concat_map (Spec.encode k) items.
Proof. reflexivity. Qed.

Lemma encode_inner_list k l1 l2 l3 :
  Spec.encode k (PList (l1 ++ PList l2 :: l3))
  = Spec.encode k (PList (l1 ++ l2 ++ l3)).
Proof.
  rewrite !encode_list, !concat_map_app, concat_map_cons, encode_list.
  destruct (Spec.concat_map (Spec.encode k) l1) as [e|e1]; [reflexivity|].
  destruct (Spec.concat_map (Spec.encode k) l2) as [e|e2]; [reflexivity|].
  now destruct (Spec.concat_map (Spec.encode k) l3).
Qed.

Lemma encode_none_item k l1 l3 :
  Spec.encode k (PList (l1 ++ PNone :: l3)) = Spec.encode k (PList (l1 ++ l3)).
Proof.
  rewrite !encode_list, !concat_map_app, concat_map_cons.
  destruct (Spec.concat_map (Spec.encode k) l1) as [e|e1]; [reflexivity|].
  now destruct (Spec.concat_map (Spec.encode k) l3).
Qed.

Lemma encode_singleton k v : Spec.encode k (PList [v]) = Spec.encode k v.
Proof.
  rewrite encode_list, concat_map_cons. simpl.
  destruct (Spec.encode k v) as [e|es]; [reflexivity|].
  unfold ok. now rewrite app_nil_r.
Qed.

(** X21: what [_marshal_value] does with a list depends on the items in
    their order only: a list inside the list counts as its items, a [None]
    among the items counts for nothing, and a list of one value is
    marshalled as the value itself. *)
Theorem X21_lists_are_flattened e k :
  (forall l1 l2 l3,
      _marshal_value (PList (l1 ++ PList l2 :: l3)) e k
      = _marshal_value (PList (l1 ++ l2 ++ l3)) e k)
  /\ (forall l1 l3,
        _marshal_value (PList (l1 ++ PNone :: l3)) e k
        = _marshal_value (PList (l1 ++ l3)) e k)
  /\ (forall v, _marshal_value (PList [v]) e k = _marshal_value v e k).
Proof.
  repeat split; intros; rewrite !marshal_value_encode.
  - now rewrite encode_inner_list.
  - now rewrite encode_none_item.
  - now rewrite encode_singleton.
Qed.

End ListFacts.

(** ** What a call returns, and zones without the keys read *)

Section MoreClientFacts.

Variable repr : pyval -> string.
Variable repr_error : transport_error -> string.
Variable gw : gateway.

(** X22: [_call] never returns [None]: a call that returns has found a
    [result] that is not [None] in the response; the tests [result is None]
    of the callers never hold. *)
Theorem X22_call_never_returns_None self task w w1 res :
  _call repr repr_error gw self task w = (w1, ok res) ->
  Py.is_none res = false
  /\ exists body d,
       gw (sent w) (last (sent w1) (Element "" None [])) = Reply body
       /\ XML.unmarshal body = PDict d
       /\ Dict.get d "result" = Some res.
Proof.
  intros Hcall.
  destruct (call_sent repr repr_error gw _ _ _ _ _ Hcall)
    as (req & Hreq & Hsent).
  rewrite Hsent, last_last.
  pose proof (call_reply repr repr_error gw self task w req) as Hrep.
  destruct (gw (sent w) req) as [body|e] eqn:Hgw.
  - specialize (Hrep body Hreq eq_refl). rewrite Hcall in Hrep.
    cbn [snd] in Hrep.
    destruct (XML.unmarshal body) as [ | s | z | f | l | d | d | s ] eqn:Hu;
      try discriminate Hrep.
    destruct (Dict.get d "result") as [r|] eqn:Hr; [|discriminate Hrep].
    destruct r; try discriminate Hrep; injection Hrep as Hres; subst res;
      (split; [reflexivity|]); exists body, d; now repeat split.
  - pose proof (call_transport_failure repr repr_error gw self task w req e
                  Hreq Hgw) as Hf.
    rewrite Hcall in Hf. discriminate Hf.
Qed.


End MoreClientFacts.

Lemma X22_call_never_returns_None_witness :
  Py.is_none (PDict [("status", PDict [("type", PStr "success")])]) = false
  /\ exists body d,
       Sample.gw (Sample.update_reply "success" [])
                 (Sample.update_reply "success" [])
         (sent (World [] []))
         (last (sent (World [lookup_request Sample.self "example.com"] []))
               (Element "" None []))
       = Reply body
       /\ XML.unmarshal body = PDict d
       /\ Dict.get d "result"
          = Some (PDict [("status", PDict [("type", PStr "success")])]).
Proof.
  apply (X22_call_never_returns_None Sample.repr Sample.repr_error
           (Sample.gw (Sample.update_reply "success" [])
                      (Sample.update_reply "success" []))
           Sample.self Sample.zone_task (World [] [])
           (World [lookup_request Sample.self "example.com"] [])
           (PDict [("status", PDict [("type", PStr "success")])])).
  reflexivity.
Defined.

